(** * try-point-blank: the Titanic notebook (notebooks/titanic.ipynb)

    A shallow embedding of the notebook's own code: ingestion of the CSV
    into DuckDB ([get_create_titanic_db]), the split into shuffled samples
    ([create_random_samples]), the recombination cross-check
    ([concat_samples]) and the rule chain handed to the validation library
    ([validate_titanic_data_sample]).

    DuckDB, pandas and NumPy are libraries the notebook calls; the calls it
    makes are modelled by their documented behaviour, each in a definition
    that carries the name of the call.  Row counts are far below 2^53, where
    Python's float division followed by [math.ceil] is the exact ceiling. *)

From Stdlib Require Import List ZArith QArith String Bool Lia Arith.
From Stdlib Require Import Permutation Sorted.
Import ListNotations.

Local Open Scope string_scope.
Local Open Scope list_scope.
Local Open Scope Z_scope.

(** ** Values, rows, tables and data frames *)

(** A cell: SQL NULL / pandas NaN, an integer, a finite float (a rational)
    or a string. *)
Inductive scalar : Type :=
| VNull
| VInt (z : Z)
| VFloat (q : Q)
| VStr (s : string).

(** A row maps column names to cells; columns keep their order. *)
Definition record : Type := list (string * scalar).

Fixpoint get (column : string) (r : record) : option scalar :=
  match r with
  | [] => None
  | (c, v) :: r' => if String.eqb c column then Some v else get column r'
  end.

(** A DuckDB table: its rows in storage order. *)
Definition table : Type := list record.

(** A pandas DataFrame: rows with their index labels. *)
Definition DataFrame : Type := list (nat * record).

(** The value of the integer column [column] of a row. *)
Definition int_of (column : string) (r : record) : option Z :=
  match get column r with
  | Some (VInt z) => Some z
  | _ => None
  end.

Definition row_id (r : record) : option Z := int_of "id" r.

(** ** NumPy's generator

    [RandomState seed] is the generator NumPy builds from an integer seed;
    [permutation g n] draws the [n] positions [0 .. n-1] without
    replacement, and returns the generator's next state. *)
Class RandomGen : Type := {
  rng : Type;
  RandomState : Z -> rng;
  permutation : rng -> nat -> list nat * rng;
  permutation_spec : forall g n, Permutation (fst (permutation g n)) (seq 0 n)
}.

(** A generator to run the notebook with: the state is a counter, the draw
    is a rotation of [0 .. n-1] by the counter. *)
Definition rotate (k n : nat) : list nat :=
  skipn (k mod n) (seq 0 n) ++ firstn (k mod n) (seq 0 n).

#[refine] Instance rotating_gen : RandomGen := {
  rng := Z;
  RandomState := fun seed => seed;
  permutation := fun g n => (rotate (Z.to_nat g) n, g + 1)
}.
Proof.
  intros g n. unfold rotate. cbn [fst].
  rewrite Permutation_app_comm. now rewrite firstn_skipn.
Defined.

(** ** The world the notebook runs in *)

Record database : Type := {
  titanic : option table;
  titanic_with_id : option table
}.

Definition empty_database : database :=
  {| titanic := None; titanic_with_id := None |}.

(** The statements the notebook sends to DuckDB. *)
Inductive sql : Type :=
| CREATE_TABLE_IF_NOT_EXISTS_titanic_AS_read_csv (url : string)
| CREATE_TABLE_titanic_with_id_AS_row_number
| DROP_TABLE_titanic
| ALTER_TABLE_titanic_with_id_RENAME_TO_titanic
| SELECT_COUNT_FROM_titanic
| SELECT_ALL_FROM_titanic.

Inductive exn : Type :=
| ConnectionException
| CatalogException
| IOException
| ZeroDivisionError
| ValueError
| KeyError.

Inductive outcome (A : Type) : Type :=
| Return (a : A)
| Raise (e : exn).
Arguments Return {A} a.
Arguments Raise {A} e.

(** ** The validation engine

    The notebook hands its rules to the pointblank library, whose code is
    not part of the repository.  The engine below follows the
    specification's sections 3, 4.3 and 4.4. *)

(** Modelled from the spec: the null policy of a Between rule, section 4.3
    (pointblank's [na_pass] handling is missing from the sources). *)
Inductive null_policy : Type := PassOnNull | FailOnNull.

(** Modelled from the spec: the rule variants of section 3 (pointblank's
    validation steps are missing from the sources). *)
Inductive Rule : Type :=
| NotNull (column : string)
| Between (column : string) (min max : Q) (policy : null_policy)
| InSet (column : string) (allowed_values : list scalar).

(** The number a cell holds, if it holds one. *)
Definition number (v : scalar) : option Q :=
  match v with
  | VInt z => Some (inject_Z z)
  | VFloat q => Some q
  | _ => None
  end.

(** Modelled from the spec: membership of a cell in the allowed values of
    an InSet rule (numbers by value, strings by content; pointblank's
    comparison is missing from the sources). *)
Definition member (v : scalar) (allowed_values : list scalar) : bool :=
  existsb (fun a =>
             match number v, number a with
             | Some x, Some y => Qeq_bool x y
             | _, _ =>
                 match v, a with
                 | VStr s, VStr t => String.eqb s t
                 | _, _ => false
                 end
             end) allowed_values.

(** Modelled from the spec: whether a row passes a rule, section 4.3
    (pointblank's row-level checks are missing from the sources).  An
    absent column fails closed (section 7). *)
Definition passes (rule : Rule) (r : record) : bool :=
  match rule with
  | NotNull column =>
      match get column r with
      | Some VNull | None => false
      | Some _ => true
      end
  | Between column lo hi policy =>
      match get column r with
      | None => false
      | Some VNull =>
          match policy with PassOnNull => true | FailOnNull => false end
      | Some v =>
          match number v with
          | Some q => Qle_bool lo q && Qle_bool q hi
          | None => false
          end
      end
  | InSet column allowed_values =>
      match get column r with
      | None | Some VNull => false
      | Some v => member v allowed_values
      end
  end.

(** Modelled from the spec: the RuleResult of section 3 (pointblank's
    per-step results are missing from the sources). *)
Record RuleResult : Type := {
  rule_of : Rule;
  rows_evaluated : nat;
  rows_passed : nat;
  failing_row_ids : list Z
}.

(** Modelled from the spec: the ValidationReport of section 3, the rule
    results in declaration order and the overall verdict (pointblank's
    validation object is missing from the sources). *)
Record ValidationReport : Type := {
  results : list RuleResult;
  all_passed : bool
}.

(** The identifiers of the rows that have one, in row order. *)
Definition ids_of (rows : table) : list Z :=
  flat_map (fun r => match row_id r with Some i => [i] | None => [] end) rows.

(** Modelled from the spec: one rule over all rows of the table, failing
    rows recorded by identifier in table order, section 4.3 (pointblank's
    interrogation is missing from the sources). *)
Definition evaluate (t : table) (rule : Rule) : RuleResult :=
  {| rule_of := rule;
     rows_evaluated := List.length t;
     rows_passed := List.length (filter (passes rule) t);
     failing_row_ids := ids_of (filter (fun r => negb (passes rule r)) t) |}.

(** Modelled from the spec: [interrogate(table, rule_set)], every rule
    evaluated on its own, in declaration order, section 4.3 (pointblank's
    [interrogate] is missing from the sources). *)
Definition interrogate (t : table) (rule_set : list Rule) : ValidationReport :=
  let rs := map (evaluate t) rule_set in
  {| results := rs;
     all_passed :=
       forallb (fun rr => Nat.eqb (rows_passed rr) (rows_evaluated rr)) rs |}.

(** Modelled from the spec: the identifiers of the rows that failed some
    rule, the union over all RuleResults, section 4.4 (pointblank's report
    summary is missing from the sources). *)
Definition overall_fail_row_ids (report : ValidationReport) : list Z :=
  nodup Z.eq_dec (List.concat (map failing_row_ids (results report))).

(** Modelled from the spec: a row is classified by looking its identifier
    up in the report, section 4.4 (pointblank's row classification is
    missing from the sources). *)
Definition listed (ids : list Z) (r : record) : bool :=
  match row_id r with
  | Some i => existsb (Z.eqb i) ids
  | None => false
  end.

(** Modelled from the spec: [sunder(table, report)], the passing table and
    the failing table, section 4.4 (pointblank's [get_sundered_data] is
    missing from the sources). *)
Definition sunder (t : table) (report : ValidationReport) : table * table :=
  let bad := overall_fail_row_ids report in
  (filter (fun r => negb (listed bad r)) t, filter (listed bad) t).

(** *** The notebook's thresholds and rule chain *)

Definition PASSENGER_CLASS : list scalar := [VInt 1; VInt 2; VInt 3].
Definition PORT_EMBARKED : list scalar := [VStr "C"; VStr "Q"; VStr "S"].
Definition SURVIVED : list scalar := [VInt 0; VInt 1].
Definition SEX : list scalar := [VStr "male"; VStr "female"].
Definition MIN_AGE : Z := 0.
Definition MAX_AGE : Z := 70.
Definition MIN_FARE : Z := 0.
Definition MAX_FARE : Z := 500.

Definition col_vals_not_null (column : string) : Rule := NotNull column.

(** [na_pass] is [False] unless the call says otherwise. *)
Definition col_vals_between (column : string) (left right : Z)
  (na_pass : bool) : Rule :=
  Between column (inject_Z left) (inject_Z right)
    (if na_pass then PassOnNull else FailOnNull).

Definition col_vals_in_set (column : string) (set : list scalar) : Rule :=
  InSet column set.

(** The steps chained in [validate_titanic_data_sample], in order. *)
Definition titanic_rules : list Rule :=
  [ col_vals_not_null "survived";
    col_vals_not_null "pclass";
    col_vals_not_null "sex";
    col_vals_not_null "age";
    col_vals_not_null "ticket";
    col_vals_not_null "fare";
    col_vals_not_null "embarked";
    col_vals_between "age" MIN_AGE MAX_AGE true;
    col_vals_between "fare" MIN_FARE MAX_FARE false;
    col_vals_in_set "pclass" PASSENGER_CLASS;
    col_vals_in_set "embarked" PORT_EMBARKED;
    col_vals_in_set "survived" SURVIVED;
    col_vals_in_set "sex" SEX ].

(** *** What the library refuses *)

(** The column a step checks. *)
Definition column_of (rule : Rule) : string :=
  match rule with
  | NotNull column | Between column _ _ _ | InSet column _ => column
  end.

(** Whether the rows of the frame have a cell, possibly a missing value,
    under [column]. *)
Definition has_column (df : DataFrame) (column : string) : bool :=
  forallb (fun x => match get column (snd x) with
                    | Some _ => true
                    | None => false
                    end) df.

(** Modelled from the spec: the report of a frame is [interrogate] of its
    rows.  Unlike section 7, the library does not go on when it has nothing
    to check (pointblank's [interrogate()] is missing from the sources):
    on a frame without rows, and on a frame that lacks the column of some
    step, the call raises ValueError and there is no report. *)
Definition interrogation (df : DataFrame) (rule_set : list Rule)
  : outcome ValidationReport :=
  match df with
  | [] => Raise ValueError
  | _ :: _ =>
      if forallb (fun rule => has_column df (column_of rule)) rule_set
      then Return (interrogate (map snd df) rule_set)
      else Raise ValueError
  end.

Section Notebook.

Context {G : RandomGen}.

(** [disk] holds the database files by path, [fetch] what a URL serves,
    [np_random] NumPy's global generator, [executed] the statements run so
    far, oldest first. *)
Record world : Type := {
  disk : string -> option database;
  fetch : string -> option table;
  np_random : rng;
  executed : list sql
}.

Definition write_db (path : string) (d : database) (w : world) : world :=
  {| disk := fun p => if String.eqb p path then Some d else disk w p;
     fetch := fetch w;
     np_random := np_random w;
     executed := executed w |}.

Definition log (q : sql) (w : world) : world :=
  {| disk := disk w;
     fetch := fetch w;
     np_random := np_random w;
     executed := executed w ++ [q] |}.

Definition set_np_random (g : rng) (w : world) : world :=
  {| disk := disk w;
     fetch := fetch w;
     np_random := g;
     executed := executed w |}.

(** Computations that read and change the world and may raise; what was
    done before an exception stays done. *)
Definition M (A : Type) : Type := world -> outcome A * world.

Definition ret {A : Type} (a : A) : M A := fun w => (Return a, w).

Definition raise {A : Type} (e : exn) : M A := fun w => (Raise e, w).

Definition bind {A B : Type} (m : M A) (k : A -> M B) : M B :=
  fun w =>
    match m w with
    | (Return a, w') => k a w'
    | (Raise e, w') => (Raise e, w')
    end.

Notation "x <- m ;; k" := (bind m (fun x => k))
  (at level 61, m at next level, right associativity).
Notation "m ;;; k" := (bind m (fun _ => k))
  (at level 61, right associativity).

(** ** DuckDB *)

(** [duckdb.connect(database=db_path, read_only=False)]: opens the file,
    creating an empty database when there is none.  The connection is named
    by the path. *)
Definition duckdb_connect (db_path : string) : M string :=
  fun w =>
    match disk w db_path with
    | Some _ => (Return db_path, w)
    | None => (Return db_path, write_db db_path empty_database w)
    end.

(** [SELECT *, ROW_NUMBER() OVER () AS id]: every row gets one more column,
    its position in the scan, counted from [k]. *)
Fixpoint row_number (k : Z) (rows : table) : table :=
  match rows with
  | [] => []
  | r :: rows' => (r ++ [("id", VInt k)]) :: row_number (k + 1) rows'
  end.

(** The effect of a statement on a database; the second component is the
    relation the statement returns. *)
Definition run_sql (fetched : string -> option table) (q : sql) (d : database)
  : outcome (database * table) :=
  match q with
  | CREATE_TABLE_IF_NOT_EXISTS_titanic_AS_read_csv url =>
      match titanic d with
      | Some _ => Return (d, [])
      | None =>
          match fetched url with
          | Some rows =>
              Return ({| titanic := Some rows;
                         titanic_with_id := titanic_with_id d |}, [])
          | None => Raise IOException
          end
      end
  | CREATE_TABLE_titanic_with_id_AS_row_number =>
      match titanic_with_id d, titanic d with
      | None, Some rows =>
          Return ({| titanic := titanic d;
                     titanic_with_id := Some (row_number 1 rows) |}, [])
      | _, _ => Raise CatalogException
      end
  | DROP_TABLE_titanic =>
      match titanic d with
      | Some _ =>
          Return ({| titanic := None;
                     titanic_with_id := titanic_with_id d |}, [])
      | None => Raise CatalogException
      end
  | ALTER_TABLE_titanic_with_id_RENAME_TO_titanic =>
      match titanic_with_id d, titanic d with
      | Some rows, None =>
          Return ({| titanic := Some rows; titanic_with_id := None |}, [])
      | _, _ => Raise CatalogException
      end
  | SELECT_COUNT_FROM_titanic =>
      match titanic d with
      | Some rows =>
          Return (d, [[("count_star()", VInt (Z.of_nat (List.length rows)))]])
      | None => Raise CatalogException
      end
  | SELECT_ALL_FROM_titanic =>
      match titanic d with
      | Some rows => Return (d, rows)
      | None => Raise CatalogException
      end
  end.

(** [con.execute(q)] and [con.sql(q)]: the statement is recorded, then run
    against the database behind the connection. *)
Definition con_sql (con : string) (q : sql) : M table :=
  fun w =>
    let w1 := log q w in
    match disk w1 con with
    | None => (Raise ConnectionException, w1)
    | Some d =>
        match run_sql (fetch w1) q d with
        | Return (d', rel) => (Return rel, write_db con d' w1)
        | Raise e => (Raise e, w1)
        end
    end.

(** [.fetchone()[0]] of a relation whose first cell is an integer. *)
Definition fetchone_0 (rel : table) : M Z :=
  match rel with
  | ((_, VInt z) :: _) :: _ => ret z
  | _ => raise ValueError
  end.

(** [.fetchdf()] / [.df()]: the rows under a fresh index [0, 1, ...]. *)
Definition fetchdf (rel : table) : DataFrame :=
  combine (seq 0 (List.length rel)) rel.

(** ** Ingestion *)

Definition path_exists (db_path : string) : M bool :=
  fun w =>
    (Return (match disk w db_path with Some _ => true | None => false end), w).

Definition get_create_titanic_db (db_path url : string) (force_create : bool)
  : M string :=
  present <- path_exists db_path ;;
  if negb present || force_create then
    con <- duckdb_connect db_path ;;
    con_sql con (CREATE_TABLE_IF_NOT_EXISTS_titanic_AS_read_csv url) ;;;
    con_sql con CREATE_TABLE_titanic_with_id_AS_row_number ;;;
    con_sql con DROP_TABLE_titanic ;;;
    con_sql con ALTER_TABLE_titanic_with_id_RENAME_TO_titanic ;;;
    ret con
  else
    con <- duckdb_connect db_path ;;
    ret con.

(** ** pandas *)

(** [df.take(locs)]: the rows at the given positions, in that order. *)
Definition take (locs : list nat) (df : DataFrame) : DataFrame :=
  flat_map (fun i => match nth_error df i with
                     | Some x => [x]
                     | None => []
                     end) locs.

(** [df.sample(frac=1, random_state=...)]: all rows at positions drawn
    without replacement.  An integer [random_state] seeds a generator of
    its own ([np.random.RandomState(seed)], which takes seeds from [0] to
    [2^32 - 1]); without one, NumPy's global generator is used and
    advances. *)
Definition DataFrame_sample (df : DataFrame) (random_state : option Z)
  : M DataFrame :=
  match random_state with
  | Some seed =>
      if (0 <=? seed) && (seed <? 2 ^ 32) then
        ret (take (fst (permutation (RandomState seed) (List.length df))) df)
      else raise ValueError
  | None =>
      fun w =>
        let drawn := permutation (np_random w) (List.length df) in
        (Return (take (fst drawn) df), set_np_random (snd drawn) w)
  end.

(** [df.reset_index(drop=True)]: the same rows under the labels
    [0, 1, ...]. *)
Definition reset_index (df : DataFrame) : DataFrame :=
  combine (seq 0 (List.length df)) (map snd df).

(** A slice bound as Python reads it on a sequence of [len] items. *)
Definition slice_bound (len i : Z) : Z :=
  if i <? 0 then Z.max 0 (i + len) else Z.min i len.

(** [df.iloc[start:stop]]. *)
Definition iloc (df : DataFrame) (start stop : Z) : DataFrame :=
  let len := Z.of_nat (List.length df) in
  let a := slice_bound len start in
  let b := slice_bound len stop in
  firstn (Z.to_nat (b - a)) (skipn (Z.to_nat a) df).

(** [pd.concat(objs)]: refuses an empty list of frames. *)
Definition pd_concat (objs : list DataFrame) : M DataFrame :=
  match objs with
  | [] => raise ValueError
  | _ => ret (List.concat objs)
  end.

Fixpoint insert_by_key {A : Type} (x : Z * A) (l : list (Z * A))
  : list (Z * A) :=
  match l with
  | [] => [x]
  | y :: l' => if fst x <=? fst y then x :: l else y :: insert_by_key x l'
  end.

Fixpoint sort_by_key {A : Type} (l : list (Z * A)) : list (Z * A) :=
  match l with
  | [] => []
  | x :: l' => insert_by_key x (sort_by_key l')
  end.

Fixpoint with_keys (by_ : string) (df : DataFrame)
  : option (list (Z * (nat * record))) :=
  match df with
  | [] => Some []
  | x :: df' =>
      match int_of by_ (snd x), with_keys by_ df' with
      | Some k, Some l => Some ((k, x) :: l)
      | _, _ => None
      end
  end.

(** [df.sort_values(by)] on an integer column: ascending, rows keep their
    labels. *)
Definition sort_values (by_ : string) (df : DataFrame) : M DataFrame :=
  match with_keys by_ df with
  | Some keyed => ret (map snd (sort_by_key keyed))
  | None => raise KeyError
  end.

Definition same_cell (a b : scalar) : bool :=
  match a, b with
  | VNull, VNull => true
  | VInt x, VInt y => x =? y
  | VFloat x, VFloat y => Qeq_bool x y
  | VStr x, VStr y => String.eqb x y
  | _, _ => false
  end.

Fixpoint all2 {A : Type} (f : A -> A -> bool) (l1 l2 : list A) : bool :=
  match l1, l2 with
  | [], [] => true
  | x :: l1', y :: l2' => f x y && all2 f l1' l2'
  | _, _ => false
  end.

(** [df.equals(other)]: same labels, same columns, same cells (nulls in the
    same place count as equal). *)
Definition DataFrame_equals (df other : DataFrame) : bool :=
  all2 (fun x y =>
          Nat.eqb (fst x) (fst y)
          && all2 (fun c d => String.eqb (fst c) (fst d)
                              && same_cell (snd c) (snd d))
                  (snd x) (snd y))
       df other.

(** ** The split into samples *)

(** The ceiling of [a / b]. *)
Definition ceil_div (a b : Z) : Z := - ((- a) / b).

(** [math.ceil(a / b)]. *)
Definition math_ceil_div (a b : Z) : M Z :=
  if b =? 0 then raise ZeroDivisionError else ret (ceil_div a b).

(** [range(n)]. *)
Definition range (n : Z) : list Z := map Z.of_nat (seq 0 (Z.to_nat n)).

(** The body of [for i in range(n_sample)], with the two lists it appends
    to. *)
Fixpoint sample_loop (shuffled_rows : DataFrame) (rows_per_sample : Z)
  (indices : list Z) (acc : list DataFrame * list nat)
  : list DataFrame * list nat :=
  match indices with
  | [] => acc
  | i :: indices' =>
      let offset := i * rows_per_sample in
      let sample := iloc shuffled_rows offset (offset + rows_per_sample) in
      sample_loop shuffled_rows rows_per_sample indices'
        (fst acc ++ [sample], snd acc ++ [List.length sample])
  end.

Definition create_random_samples (con : string) (n_sample : Z)
  (RANDOM_SEED : Z) : M (list DataFrame * list nat) :=
  counted <- con_sql con SELECT_COUNT_FROM_titanic ;;
  total_rows <- fetchone_0 counted ;;
  rows_per_sample <- math_ceil_div total_rows n_sample ;;
  selected <- con_sql con SELECT_ALL_FROM_titanic ;;
  let all_rows := fetchdf selected in
  sampled <- DataFrame_sample all_rows (Some RANDOM_SEED) ;;
  let shuffled_rows := reset_index sampled in
  ret (sample_loop shuffled_rows rows_per_sample (range n_sample) ([], [])).

(** What [shuffled_rows] holds for a table and a seed. *)
Definition shuffled_rows_of (t : table) (seed : Z) : DataFrame :=
  reset_index
    (take (fst (permutation (RandomState seed) (List.length t))) (fetchdf t)).

(** The default of the [RANDOM_SEED] argument, and the number of samples
    the notebook asks for. *)
Definition DEFAULT_RANDOM_SEED : Z := 42.
Definition N_SAMPLE : Z := 5.

(** ** The cross-check cell *)

Definition concat_samples (samples : list DataFrame) : M DataFrame :=
  joined <- pd_concat samples ;;
  sorted <- sort_values "id" joined ;;
  ret (reset_index sorted).

Definition identical (con : string) (samples : list DataFrame) : M bool :=
  selected <- con_sql con SELECT_ALL_FROM_titanic ;;
  let original_df := fetchdf selected in
  recombined <- concat_samples samples ;;
  ret (DataFrame_equals original_df recombined).

(** ** Frames as Python keeps them *)

(** What a cell displays: the line [**Sample i**: n rows], or a
    validation. *)
Inductive output : Type :=
| Markdown_sample (i n : nat)
| Validation (validation : ValidationReport).

(** A DataFrame is an object: a name, an argument or a list item refers to
    it by address, and a call that is handed the address may change the
    frame in place.  [frames] holds the frames made so far, by address;
    [displayed] what the cells have shown, oldest first; [outside] is the
    world beyond the Python process. *)
Record kernel : Type := {
  outside : world;
  frames : list DataFrame;
  displayed : list output
}.

Definition K (A : Type) : Type := kernel -> outcome A * kernel.

Definition k_ret {A : Type} (a : A) : K A := fun k => (Return a, k).

Definition k_raise {A : Type} (e : exn) : K A := fun k => (Raise e, k).

Definition k_bind {A B : Type} (m : K A) (f : A -> K B) : K B :=
  fun k =>
    match m k with
    | (Return a, k') => f a k'
    | (Raise e, k') => (Raise e, k')
    end.

Notation "x <~ m ;; f" := (k_bind m (fun x => f))
  (at level 61, m at next level, right associativity).

(** A computation on the world outside, run from the kernel. *)
Definition in_world {A : Type} (m : M A) : K A :=
  fun k =>
    (fst (m (outside k)),
     {| outside := snd (m (outside k));
        frames := frames k;
        displayed := displayed k |}).

(** A frame a call returns is a new object, at the next free address. *)
Definition new_frame (df : DataFrame) : K nat :=
  fun k =>
    (Return (List.length (frames k)),
     {| outside := outside k;
        frames := frames k ++ [df];
        displayed := displayed k |}).

Fixpoint new_frames (dfs : list DataFrame) : K (list nat) :=
  match dfs with
  | [] => k_ret []
  | df :: dfs' =>
      a <~ new_frame df ;;
      rest <~ new_frames dfs' ;;
      k_ret (a :: rest)
  end.

(** The frame at an address.  Python has no name without an object; an
    address that holds nothing is a KeyError here. *)
Definition frame_at (a : nat) : K DataFrame :=
  fun k =>
    match nth_error (frames k) a with
    | Some df => (Return df, k)
    | None => (Raise KeyError, k)
    end.

(** [display(...)]. *)
Definition display (o : output) : K unit :=
  fun k =>
    (Return tt,
     {| outside := outside k;
        frames := frames k;
        displayed := displayed k ++ [o] |}).

(** [samples, sample_size = create_random_samples(con, N_SAMPLE)]: the
    samples the call returns are new frames. *)
Definition call_create_random_samples (con : string) (n_sample seed : Z)
  : K (list nat * list nat) :=
  returned <~ in_world (create_random_samples con n_sample seed) ;;
  samples <~ new_frames (fst returned) ;;
  k_ret (samples, snd returned).

(** ** The validation cell *)

(** [pb.Validate(data=data, ...) ... .interrogate()]: the library is handed
    the frame and reads it. *)
Definition pb_interrogate (data : nat) (rule_set : list Rule)
  : K ValidationReport :=
  df <~ frame_at data ;;
  match interrogation df rule_set with
  | Return validation => k_ret validation
  | Raise e => k_raise e
  end.

Definition validate_titanic_data_sample (data : nat) : K ValidationReport :=
  pb_interrogate data titanic_rules.

(** [validation.get_sundered_data()]: the rows that passed every step. *)
Definition get_sundered_data (data : DataFrame) (validation : ValidationReport)
  : table :=
  fst (sunder (map snd data) validation).

End Notebook.

(** ** Notions the properties are stated with *)

(** The [i]-th run of [r] items of [l]. *)
Definition chunk {A : Type} (r i : nat) (l : list A) : list A :=
  firstn r (skipn (i * r) l).

Definition key_le {A : Type} (x y : Z * A) : Prop := fst x <= fst y.

(** The identifier of a row that has one. *)
Definition id_key (r : record) : Z :=
  match row_id r with
  | Some i => i
  | None => 0
  end.

(** Every row has an identifier, larger than those of the rows before it;
    this is how ingestion leaves the table. *)
Definition increasing_ids (t : table) : Prop :=
  exists ids, map row_id t = map Some ids /\ StronglySorted Z.lt ids.

(** Every row has an identifier and no two rows share one. *)
Definition unique_ids (t : table) : Prop :=
  NoDup (map row_id t) /\ Forall (fun r => row_id r <> None) t.

Definition read_only (q : sql) : Prop :=
  match q with
  | SELECT_COUNT_FROM_titanic | SELECT_ALL_FROM_titanic => True
  | _ => False
  end.

(** [w'] differs from [w] by queries at most: same database files, same
    remote data, same global generator. *)
Definition unchanged {G : RandomGen} (w w' : world) : Prop :=
  (forall p, disk w' p = disk w p)
  /\ fetch w' = fetch w
  /\ np_random w' = np_random w
  /\ exists qs, executed w' = executed w ++ qs /\ Forall read_only qs.

Definition frame {G : RandomGen} {A : Type} (m : M A) : Prop :=
  forall w, unchanged w (snd (m w)).

Definition passes_all (rule_set : list Rule) (r : record) : bool :=
  forallb (fun rule => passes rule r) rule_set.

(** The samples a run of the split returned. *)
Definition samples_returned (o : outcome (list DataFrame * list nat))
  : list DataFrame :=
  match o with
  | Return (samples, _) => samples
  | Raise _ => []
  end.

(** The largest size less the smallest. *)
Definition spread (sizes : list nat) : nat :=
  list_max sizes - fold_right Nat.min (list_max sizes) sizes.

(** The sizes a run of the split returned. *)
Definition sizes_returned (o : outcome (list DataFrame * list nat))
  : list nat :=
  match o with
  | Return (_, sample_size) => sample_size
  | Raise _ => []
  end.

(** ** Data to run the notebook on *)

Definition TITANIC_URL : string :=
  "https://hbiostat.org/data/repo/titanic3.csv".

(** A CSV of [n] passengers. *)
Definition passengers (n : nat) : table :=
  map (fun i => [("pclass", VInt (1 + Z.of_nat (i mod 3)));
                 ("age", VInt (Z.of_nat (3 * i)))])
      (seq 0 n).

(** A world with no database file yet, where every URL serves [rows]. *)
Definition fresh_world (rows : table) : @world rotating_gen :=
  {| disk := fun _ => None;
     fetch := fun _ => Some rows;
     np_random := 7;
     executed := [] |}.

(** The world after the cell [con = get_create_titanic_db()]. *)
Definition ingested_world (rows : table) : @world rotating_gen :=
  snd (get_create_titanic_db "titanic.duckdb" TITANIC_URL false
         (fresh_world rows)).

Definition ingested_database (rows : table) : database :=
  {| titanic := Some (row_number 1 rows); titanic_with_id := None |}.

(** Two rows stored with the larger identifier first, and a world whose
    database file holds them. *)
Definition unordered_table : table :=
  [ [("age", VInt 30); ("id", VInt 2)];
    [("age", VInt 40); ("id", VInt 1)] ].

Definition unordered_world : @world rotating_gen :=
  {| disk := fun p =>
       if String.eqb p "titanic.duckdb"
       then Some {| titanic := Some unordered_table;
                    titanic_with_id := None |}
       else None;
     fetch := fun _ => None;
     np_random := 7;
     executed := [] |}.

(** Scenario A: ten rows, one age missing, one age of 85. *)
Definition scenario_A : table :=
  row_number 1
    (map (fun age => [("age", age)])
       [VInt 22; VInt 38; VFloat (0.92)%Q; VNull; VInt 35;
        VInt 85; VInt 54; VInt 2; VInt 70; VInt 0]).

(** Scenario B: the ports C, Q, S, an unknown port X and a missing one. *)
Definition scenario_B : table :=
  row_number 1
    (map (fun port => [("embarked", port)])
       [VStr "C"; VStr "Q"; VStr "S"; VStr "X"; VNull]).

(** ** The last cell *)

(** [for i, sample in enumerate(samples)]: every sample is validated in
    turn, then its number [i+1] and its size are displayed, then its
    validation.  An exception ends the loop; what was displayed before
    stays displayed. *)
Fixpoint validate_samples_from {G : RandomGen} (i : nat)
  (samples : list nat) : K unit :=
  match samples with
  | [] => k_ret tt
  | sample :: samples' =>
      k_bind (validate_titanic_data_sample sample) (fun validation =>
      k_bind (frame_at sample) (fun df =>
      k_bind (display (Markdown_sample (i + 1) (List.length df))) (fun _ =>
      k_bind (display (Validation validation)) (fun _ =>
      validate_samples_from (S i) samples'))))
  end.

Definition validate_samples {G : RandomGen} (samples : list nat) : K unit :=
  validate_samples_from 0 samples.

(** What the loop displays for the frames [dfs], the first one under the
    number [i]. *)
Definition shown_from (i : nat) (dfs : list DataFrame) : list output :=
  flat_map (fun x =>
              [Markdown_sample (fst x) (List.length (snd x));
               Validation (interrogate (map snd (snd x)) titanic_rules)])
    (combine (seq i (List.length dfs)) dfs).

(** ** More data to run the notebook on *)

(** A CSV of [n] passengers with the columns the chain checks. *)
Definition complete_passengers (n : nat) : table :=
  map (fun i => [("pclass", VInt (1 + Z.of_nat (i mod 3)));
                 ("survived", VInt (Z.of_nat (i mod 2)));
                 ("sex", VStr (if Nat.even i then "female" else "male"));
                 ("age", VInt (Z.of_nat (3 * i)));
                 ("ticket", VStr "113781");
                 ("fare", VFloat 26.55);
                 ("embarked", VStr "S")])
      (seq 0 n).

(** The kernel after the cell [con = get_create_titanic_db()], before any
    frame is made or anything displayed. *)
Definition kernel_after_ingestion (rows : table) : @kernel rotating_gen :=
  {| outside := ingested_world rows; frames := []; displayed := [] |}.

(** A world with no database file yet and no network: no URL is served. *)
Definition offline_world : @world rotating_gen :=
  {| disk := fun _ => None;
     fetch := fun _ => None;
     np_random := 7;
     executed := [] |}.

(** The world [w] once every URL serves [rows]. *)
Definition back_online {G : RandomGen} (rows : table) (w : world) : world :=
  {| disk := disk w;
     fetch := fun _ => Some rows;
     np_random := np_random w;
     executed := executed w |}.

(** The world after a first call of ingestion without network. *)
Definition world_after_failed_load : @world rotating_gen :=
  snd (get_create_titanic_db "titanic.duckdb" TITANIC_URL false
         offline_world).

(** A world whose database file holds a table made elsewhere, without an
    [id] column. *)
Definition foreign_table : table :=
  [ [("age", VInt 30)]; [("age", VInt 40)]; [("age", VInt 50)] ].

Definition foreign_world : @world rotating_gen :=
  {| disk := fun p =>
       if String.eqb p "titanic.duckdb"
       then Some {| titanic := Some foreign_table;
                    titanic_with_id := None |}
       else None;
     fetch := fun _ => None;
     np_random := 7;
     executed := [] |}.

(** Five passengers as the CSV has them: the third has no age, the fourth
    an unknown port, the fifth is 80 years old. *)
Definition five_passengers : table :=
  map (fun p : Z * Z * string * scalar * string * Q * scalar =>
         match p with
         | (survived, pclass, sex, age, ticket, fare, embarked) =>
             [("pclass", VInt pclass); ("survived", VInt survived);
              ("sex", VStr sex); ("age", age); ("ticket", VStr ticket);
              ("fare", VFloat fare); ("embarked", embarked)]
         end)
      [ (1, 1, "female", VInt 29, "24160", 211.3375%Q, VStr "S");
        (1, 1, "male", VFloat 0.92, "113781", 151.55%Q, VStr "S");
        (0, 3, "male", VNull, "2674", 7.225%Q, VStr "C");
        (1, 2, "female", VInt 24, "230433", 26%Q, VStr "X");
        (0, 1, "male", VInt 80, "27042", 30%Q, VStr "S") ].

(** * Properties *)

(** ** Lists cut into chunks *)

Section Chunks.

Context {A : Type}.

Lemma chunk_length (r i : nat) (l : list A) :
  List.length (chunk r i l) = Nat.min r (List.length l - i * r).
Proof.
  unfold chunk. now rewrite length_firstn, length_skipn.
Qed.

Lemma chunk_succ (r i : nat) (l : list A) :
  chunk r (S i) l = chunk r i (skipn r l).
Proof.
  unfold chunk. rewrite skipn_skipn. do 2 f_equal. lia.
Qed.


Lemma chunks_shift (r n k : nat) (l : list A) :
  map (fun i => chunk r i l) (seq (S k) n)
  = map (fun i => chunk r i (skipn r l)) (seq k n).
Proof.
  rewrite <- seq_shift, map_map.
  apply map_ext. intros i. apply chunk_succ.
Qed.

(** Enough chunks, joined end to end, give the list back. *)
Lemma concat_chunks (r n : nat) (l : list A) :
  (List.length l <= n * r)%nat ->
  List.concat (map (fun i => chunk r i l) (seq 0 n)) = l.
Proof.
  revert l. induction n as [|n IH]; intros l Hlen.
  - destruct l; [reflexivity | simpl in Hlen; lia].
  - cbn [seq map List.concat]. rewrite chunks_shift, IH.
    + unfold chunk. cbn [Nat.mul skipn]. apply firstn_skipn.
    + rewrite length_skipn. lia.
Qed.

End Chunks.

(** ** Slices and the sampling loop *)

Lemma iloc_nonneg (df : DataFrame) (a k : Z) :
  0 <= a -> 0 <= k ->
  iloc df a (a + k) = firstn (Z.to_nat k) (skipn (Z.to_nat a) df).
Proof.
  intros Ha Hk. unfold iloc, slice_bound.
  destruct (Z.ltb_spec a 0) as [?|_]; [lia|].
  destruct (Z.ltb_spec (a + k) 0) as [?|_]; [lia|].
  set (len := Z.of_nat (List.length df)).
  destruct (Z.le_gt_cases a len) as [Hin|Hout].
  - rewrite (Z.min_l a len) by lia.
    destruct (Z.le_gt_cases (a + k) len) as [Hfit|Hcut].
    + rewrite (Z.min_l (a + k) len) by lia. do 2 f_equal. lia.
    + rewrite (Z.min_r (a + k) len) by lia.
      rewrite !firstn_all2; [reflexivity | |]; rewrite length_skipn; lia.
  - rewrite (Z.min_r a len), (Z.min_r (a + k) len) by lia.
    rewrite Z.sub_diag. cbn [Z.to_nat firstn].
    rewrite skipn_all2 by lia. now rewrite firstn_nil.
Qed.

Lemma in_firstn_skipn {A : Type} (k a : nat) (l : list A) (x : A) :
  In x (firstn k (skipn a l)) -> In x l.
Proof.
  intros Hin.
  rewrite <- (firstn_skipn a l). apply in_or_app. right.
  rewrite <- (firstn_skipn k (skipn a l)). apply in_or_app. now left.
Qed.

Lemma iloc_subset (df : DataFrame) (a b : Z) (x : nat * record) :
  In x (iloc df a b) -> In x df.
Proof. unfold iloc. apply in_firstn_skipn. Qed.

Lemma sample_loop_spec (df : DataFrame) (rps : Z) (indices : list Z)
  (acc : list DataFrame * list nat) :
  sample_loop df rps indices acc
  = (fst acc ++ map (fun i => iloc df (i * rps) (i * rps + rps)) indices,
     snd acc
     ++ map (fun i => List.length (iloc df (i * rps) (i * rps + rps)))
          indices).
Proof.
  revert acc. induction indices as [|i indices IH]; intros [samples sizes].
  - cbn. now rewrite !app_nil_r.
  - cbn [sample_loop]. rewrite IH. cbn [fst snd map].
    now rewrite <- !app_assoc.
Qed.

(** With a non-negative chunk size the loop cuts [df] into chunks. *)
Lemma sample_loop_chunks (df : DataFrame) (rps n : Z) :
  0 <= rps ->
  sample_loop df rps (range n) ([], [])
  = (map (fun i => chunk (Z.to_nat rps) i df) (seq 0 (Z.to_nat n)),
     map (fun i => List.length (chunk (Z.to_nat rps) i df))
       (seq 0 (Z.to_nat n))).
Proof.
  intros Hrps. rewrite sample_loop_spec. cbn [fst snd app].
  unfold range. rewrite !map_map.
  assert (Hcut : forall i : nat,
             iloc df (Z.of_nat i * rps) (Z.of_nat i * rps + rps)
             = chunk (Z.to_nat rps) i df).
  { intros i. rewrite iloc_nonneg by lia. unfold chunk.
    now rewrite Z2Nat.inj_mul, Nat2Z.id by lia. }
  f_equal; apply map_ext; intros i; now rewrite Hcut.
Qed.

(** ** The ceiling *)

Lemma ceil_div_covers (a b : Z) : 0 < b -> a <= b * ceil_div a b.
Proof.
  intros Hb. unfold ceil_div.
  pose proof (Z.mul_div_le (- a) b Hb). lia.
Qed.

Lemma ceil_div_tight (a b : Z) : 0 < b -> b * ceil_div a b < a + b.
Proof.
  intros Hb. unfold ceil_div.
  pose proof (Z.mul_succ_div_gt (- a) b Hb). lia.
Qed.

Lemma ceil_div_nonneg (a b : Z) : 0 <= a -> 0 < b -> 0 <= ceil_div a b.
Proof.
  intros Ha Hb. pose proof (ceil_div_tight a b Hb).
  pose proof (ceil_div_covers a b Hb). nia.
Qed.

(** ** Frames: labels, positions, rows *)

Lemma map_snd_combine {A B : Type} (l1 : list A) (l2 : list B) :
  List.length l1 = List.length l2 -> map snd (combine l1 l2) = l2.
Proof.
  revert l2. induction l1 as [|a l1 IH]; intros [|b l2] Hlen;
    cbn in *; try congruence.
  f_equal. apply IH. lia.
Qed.

Lemma fetchdf_rows (rel : table) : map snd (fetchdf rel) = rel.
Proof. apply map_snd_combine, length_seq. Qed.

Lemma fetchdf_length (rel : table) :
  List.length (fetchdf rel) = List.length rel.
Proof. rewrite <- (fetchdf_rows rel) at 2. now rewrite length_map. Qed.

Lemma reset_index_rows (df : DataFrame) :
  map snd (reset_index df) = map snd df.
Proof.
  unfold reset_index. apply map_snd_combine.
  now rewrite length_seq, length_map.
Qed.

Lemma reset_index_length (df : DataFrame) :
  List.length (reset_index df) = List.length df.
Proof.
  rewrite <- (length_map snd), reset_index_rows. apply length_map.
Qed.

(** A frame whose labels are [0, 1, ...] is its rows under a fresh index. *)
Lemma reset_index_of_rows (df : DataFrame) (rows : table) :
  map snd df = rows -> reset_index df = fetchdf rows.
Proof.
  intros <-. unfold reset_index, fetchdf. now rewrite length_map.
Qed.

Lemma take_all (df : DataFrame) : take (seq 0 (List.length df)) df = df.
Proof.
  unfold take. induction df as [|x df IH]; [reflexivity|].
  cbn [List.length seq flat_map nth_error app].
  rewrite <- seq_shift, flat_map_concat_map, map_map.
  rewrite <- flat_map_concat_map. cbn [nth_error]. now rewrite IH.
Qed.

Lemma take_permutation (locs : list nat) (df : DataFrame) :
  Permutation locs (seq 0 (List.length df)) -> Permutation (take locs df) df.
Proof.
  intros Hperm. rewrite <- (take_all df) at 2.
  unfold take. now apply Permutation_flat_map.
Qed.

(** ** Sorting by an integer key *)

Section Sorting.

Context {A : Type}.

Lemma insert_by_key_perm (x : Z * A) (l : list (Z * A)) :
  Permutation (insert_by_key x l) (x :: l).
Proof.
  induction l as [|y l IH]; cbn; [reflexivity|].
  destruct (fst x <=? fst y); [reflexivity|].
  rewrite IH. apply perm_swap.
Qed.

Lemma sort_by_key_perm (l : list (Z * A)) : Permutation (sort_by_key l) l.
Proof.
  induction l as [|x l IH]; cbn; [reflexivity|].
  rewrite insert_by_key_perm. now constructor.
Qed.

Lemma insert_by_key_sorted (x : Z * A) (l : list (Z * A)) :
  StronglySorted key_le l -> StronglySorted key_le (insert_by_key x l).
Proof.
  induction 1 as [|y l Hsorted IH Hall]; cbn.
  - repeat constructor.
  - destruct (Z.leb_spec (fst x) (fst y)) as [Hle|Hgt].
    + constructor; [now constructor|].
      constructor; [exact Hle|].
      eapply Forall_impl; [|exact Hall].
      unfold key_le. intros z Hz. lia.
    + constructor; [exact IH|].
      rewrite (insert_by_key_perm x l).
      constructor; [unfold key_le; lia | exact Hall].
Qed.

Lemma sort_by_key_sorted (l : list (Z * A)) :
  StronglySorted key_le (sort_by_key l).
Proof.
  induction l as [|x l IH]; cbn; [constructor|].
  now apply insert_by_key_sorted.
Qed.

Variable key : A -> Z.

(** A list in strictly increasing key order is the only sorted
    arrangement of its items. *)
Lemma sorted_unique (l1 l2 : list A) :
  StronglySorted (fun a b => key a < key b) l1 ->
  StronglySorted (fun a b => key a <= key b) l2 ->
  Permutation l1 l2 ->
  l2 = l1.
Proof.
  intros Hstrict. revert l2.
  induction Hstrict as [|x l1 Hs1 IH Hx]; intros l2 Hsorted Hperm.
  - now apply Permutation_nil in Hperm.
  - destruct l2 as [|y l2].
    { apply Permutation_sym, Permutation_nil in Hperm. discriminate. }
    inversion Hsorted as [|? ? Hs2 Hy]; subst.
    assert (Hxy : y = x).
    { assert (Hinx : In x (y :: l2))
        by (eapply Permutation_in; [exact Hperm | now left]).
      assert (Hiny : In y (x :: l1))
        by (eapply Permutation_in;
            [apply Permutation_sym; exact Hperm | now left]).
      destruct Hinx as [Heq|Hinx]; [exact Heq|].
      destruct Hiny as [Heq|Hiny]; [now symmetry|].
      rewrite Forall_forall in Hx, Hy.
      specialize (Hx _ Hiny). specialize (Hy _ Hinx). lia. }
    subst y. f_equal. apply IH; [exact Hs2|].
    eapply Permutation_cons_inv. exact Hperm.
Qed.

End Sorting.

(** ** Tables whose identifiers increase *)

Lemma increasing_ids_have (t : table) :
  increasing_ids t -> Forall (fun r => row_id r = Some (id_key r)) t.
Proof.
  intros (ids & Hids & _). revert ids Hids.
  induction t as [|r t IH]; intros [|i ids] Hids; cbn in Hids;
    try discriminate; constructor.
  - unfold id_key. injection Hids as Hr _. now rewrite Hr.
  - injection Hids as _ Ht. eapply IH, Ht.
Qed.

Lemma increasing_ids_keys (t : table) :
  increasing_ids t -> map id_key t = ids_of t /\
  exists ids, ids_of t = ids /\ map row_id t = map Some ids
              /\ StronglySorted Z.lt ids.
Proof.
  intros (ids & Hids & Hsorted).
  assert (Hof : ids_of t = ids /\ map id_key t = ids).
  { clear Hsorted. revert ids Hids.
    induction t as [|r t IH]; intros [|i ids] Hids; cbn in Hids;
      try discriminate; [now split|].
    injection Hids as Hr Ht. destruct (IH _ Ht) as [IH1 IH2].
    unfold ids_of, id_key in *. cbn. rewrite Hr. cbn.
    split; f_equal; assumption. }
  destruct Hof as [Hof Hkeys]. split; [congruence|].
  exists ids. now repeat split.
Qed.

Lemma increasing_ids_sorted (t : table) :
  increasing_ids t -> StronglySorted (fun a b => id_key a < id_key b) t.
Proof.
  intros Hinc. destruct (increasing_ids_keys t Hinc) as [Hkeys (ids & Hof & _ & Hsorted)].
  rewrite Hof in Hkeys. clear Hinc Hof. revert ids Hkeys Hsorted.
  induction t as [|r t IH]; intros ids Hkeys Hsorted; [constructor|].
  destruct ids as [|i ids]; [discriminate|].
  cbn in Hkeys. injection Hkeys as Hr Ht.
  inversion Hsorted as [|? ? Hs Hall]; subst.
  constructor; [eapply IH; eauto|].
  rewrite Forall_forall in *. intros r' Hin.
  apply Hall. apply in_map_iff. now exists r'.
Qed.

Lemma increasing_ids_NoDup (t : table) :
  increasing_ids t -> NoDup (ids_of t).
Proof.
  intros Hinc. destruct (increasing_ids_keys t Hinc) as [_ (ids & -> & _ & Hsorted)].
  clear Hinc. induction Hsorted as [|i ids Hs IH Hall]; constructor; [|exact IH].
  intros Hin. rewrite Forall_forall in Hall. specialize (Hall _ Hin). lia.
Qed.

(** ** Sorting a frame by its identifier column *)

Lemma with_keys_id (df : DataFrame) :
  Forall (fun r => row_id r = Some (id_key r)) (map snd df) ->
  with_keys "id" df = Some (map (fun x => (id_key (snd x), x)) df).
Proof.
  induction df as [|x df IH]; intros Hall; [reflexivity|].
  cbn in Hall. inversion Hall as [|? ? Hx Hdf]; subst.
  cbn [with_keys map]. fold (row_id (snd x)). rewrite Hx, IH by exact Hdf.
  reflexivity.
Qed.

Lemma keyed_rows_sorted (l : list (Z * (nat * record))) :
  Forall (fun kx => fst kx = id_key (snd (snd kx))) l ->
  StronglySorted key_le l ->
  StronglySorted (fun a b => id_key a <= id_key b)
    (map (fun kx => snd (snd kx)) l).
Proof.
  intros Hkeys Hsorted.
  induction Hsorted as [|kx l Hs IH Hall]; cbn; [constructor|].
  inversion Hkeys as [|? ? Hkx Hl]; subst.
  constructor; [now apply IH|].
  rewrite Forall_forall in *. intros r Hin.
  apply in_map_iff in Hin. destruct Hin as (ky & <- & Hin).
  specialize (Hall _ Hin). specialize (Hl _ Hin).
  unfold key_le in Hall. lia.
Qed.

(** Sorting any arrangement of the rows of a table with increasing
    identifiers puts the rows back in the table's order. *)
Lemma sort_values_restores {G : RandomGen} (t : table) (df : DataFrame)
  (w : world) :
  increasing_ids t ->
  Permutation (map snd df) t ->
  exists sorted,
    sort_values "id" df w = (Return sorted, w) /\ map snd sorted = t.
Proof.
  intros Hinc Hperm.
  assert (Hhave : Forall (fun r => row_id r = Some (id_key r)) (map snd df)).
  { rewrite Hperm. now apply increasing_ids_have. }
  set (keyed := map (fun x => (id_key (snd x), x)) df).
  exists (map snd (sort_by_key keyed)). split.
  - unfold sort_values. now rewrite with_keys_id.
  - rewrite map_map. apply (sorted_unique id_key).
    + now apply increasing_ids_sorted.
    + apply keyed_rows_sorted; [|apply sort_by_key_sorted].
      rewrite (sort_by_key_perm keyed). unfold keyed.
      rewrite Forall_map. now apply Forall_forall.
    + rewrite (sort_by_key_perm keyed). unfold keyed.
      rewrite <- Hperm, <- (map_map (fun x => (id_key (snd x), x))
                                    (fun kx => snd (snd kx))).
      rewrite map_map. cbn [snd]. reflexivity.
Qed.

(** ** What a computation leaves untouched *)

Section Frames.

Context {G : RandomGen}.

Lemma unchanged_refl (w : world) : unchanged w w.
Proof.
  split; [reflexivity | split; [reflexivity | split; [reflexivity|]]].
  exists []. split; [now rewrite app_nil_r | constructor].
Qed.

Lemma unchanged_trans (w1 w2 w3 : world) :
  unchanged w1 w2 -> unchanged w2 w3 -> unchanged w1 w3.
Proof.
  intros (Hd1 & Hf1 & Hg1 & qs1 & He1 & Hq1) (Hd2 & Hf2 & Hg2 & qs2 & He2 & Hq2).
  split; [|split; [congruence | split; [congruence|]]].
  - intros p. now rewrite Hd2, Hd1.
  - exists (qs1 ++ qs2). split.
    + now rewrite He2, He1, app_assoc.
    + now apply Forall_app.
Qed.

Lemma frame_ret {A : Type} (a : A) : frame (ret a).
Proof. intros w. apply unchanged_refl. Qed.

Lemma frame_raise {A : Type} (e : exn) : frame (@raise G A e).
Proof. intros w. apply unchanged_refl. Qed.

Lemma frame_bind {A B : Type} (m : M A) (k : A -> M B) :
  frame m -> (forall a, frame (k a)) -> frame (bind m k).
Proof.
  intros Hm Hk w. unfold bind. specialize (Hm w).
  destruct (m w) as [[a|e] w1]; cbn [snd] in *; [|exact Hm].
  eapply unchanged_trans; [exact Hm | apply Hk].
Qed.

Lemma frame_select (con : string) (q : sql) :
  read_only q -> frame (con_sql con q).
Proof.
  intros Hq w. unfold con_sql. cbn [disk log].
  assert (Hlog : unchanged w (log q w)).
  { split; [reflexivity | split; [reflexivity | split; [reflexivity|]]].
    exists [q]. split; [reflexivity | now repeat constructor]. }
  destruct (disk w con) as [d|] eqn:Hd; [|exact Hlog].
  destruct q; try contradiction; cbn [run_sql];
    (destruct (titanic d); [|exact Hlog]); cbn [snd];
    (split; [|split; [reflexivity | split; [reflexivity|]]]).
  all: try (intros p; cbn [disk write_db log];
            destruct (String.eqb_spec p con); congruence).
  all: eexists [_]; (split; [reflexivity | now repeat constructor]).
Qed.

Lemma frame_fetchone_0 (rel : table) : frame (fetchone_0 rel).
Proof.
  destruct rel as [|[|[c []] r] rel]; cbn;
    first [apply frame_ret | apply frame_raise].
Qed.

Lemma frame_math_ceil_div (a b : Z) : frame (math_ceil_div a b).
Proof.
  unfold math_ceil_div. destruct (b =? 0);
    [apply frame_raise | apply frame_ret].
Qed.

(** With an integer seed the draw leaves NumPy's global generator alone. *)
Lemma frame_sample_seeded (df : DataFrame) (seed : Z) :
  frame (DataFrame_sample df (Some seed)).
Proof.
  unfold DataFrame_sample. destruct (_ && _);
    [apply frame_ret | apply frame_raise].
Qed.

Lemma frame_pd_concat (objs : list DataFrame) : frame (pd_concat objs).
Proof. destruct objs; [apply frame_raise | apply frame_ret]. Qed.

Lemma frame_sort_values (by_ : string) (df : DataFrame) :
  frame (sort_values by_ df).
Proof.
  unfold sort_values. destruct (with_keys by_ df);
    [apply frame_ret | apply frame_raise].
Qed.

Create HintDb frames.
#[local] Hint Resolve frame_ret frame_raise frame_fetchone_0
  frame_math_ceil_div frame_sample_seeded frame_pd_concat
  frame_sort_values : frames.
#[local] Hint Extern 1 (frame (con_sql _ SELECT_COUNT_FROM_titanic)) =>
  apply frame_select; exact I : frames.
#[local] Hint Extern 1 (frame (con_sql _ SELECT_ALL_FROM_titanic)) =>
  apply frame_select; exact I : frames.
#[local] Hint Extern 2 (frame (bind _ _)) =>
  apply frame_bind; [|intros ?] : frames.

Lemma frame_create_random_samples (con : string) (n_sample seed : Z) :
  frame (create_random_samples con n_sample seed).
Proof. unfold create_random_samples. auto 20 with frames. Qed.

Lemma frame_concat_samples (samples : list DataFrame) :
  frame (concat_samples samples).
Proof. unfold concat_samples. auto 20 with frames. Qed.

Lemma frame_identical (con : string) (samples : list DataFrame) :
  frame (identical con samples).
Proof.
  unfold identical. pose proof frame_concat_samples.
  auto 20 with frames.
Qed.

End Frames.

(** ** Identifiers across several frames *)

Lemma ids_of_app (t1 t2 : table) : ids_of (t1 ++ t2) = ids_of t1 ++ ids_of t2.
Proof. apply flat_map_app. Qed.

Lemma ids_of_concat (frames : list DataFrame) :
  ids_of (map snd (List.concat frames))
  = List.concat (map (fun df => ids_of (map snd df)) frames).
Proof.
  induction frames as [|df frames IH]; [reflexivity|].
  cbn [List.concat map]. now rewrite map_app, ids_of_app, IH.
Qed.

Lemma ids_of_perm (t1 t2 : table) :
  Permutation t1 t2 -> Permutation (ids_of t1) (ids_of t2).
Proof. apply Permutation_flat_map. Qed.

(** An item that occurs once in a concatenation sits in exactly one of
    the lists. *)
Lemma once_in_concat (x : Z) (lists : list (list Z)) :
  count_occ Z.eq_dec (List.concat lists) x = 1%nat ->
  exists k, In x (nth k lists [])
            /\ forall k', In x (nth k' lists []) -> k' = k.
Proof.
  induction lists as [|l lists IH]; cbn [List.concat]; [discriminate|].
  rewrite count_occ_app. intros Hcount.
  destruct (in_dec Z.eq_dec x l) as [Hin|Hout].
  - exists 0%nat. split; [exact Hin|].
    intros [|k'] Hk'; [reflexivity|]. exfalso.
    apply (count_occ_In Z.eq_dec) in Hin.
    assert (Hrest : count_occ Z.eq_dec (List.concat lists) x = 0%nat) by lia.
    apply (count_occ_not_In Z.eq_dec) in Hrest. apply Hrest.
    apply in_concat. exists (nth k' lists []). split; [|exact Hk'].
    cbn [nth] in Hk'. destruct (Nat.lt_ge_cases k' (List.length lists)).
    + now apply nth_In.
    + rewrite nth_overflow in Hk' by lia. contradiction.
  - apply (count_occ_not_In Z.eq_dec) in Hout as Hzero.
    destruct IH as (k & Hk & Honly); [lia|].
    exists (S k). split; [exact Hk|].
    intros [|k'] Hk'; [contradiction|]. f_equal. now apply Honly.
Qed.

(** ** Frame equality *)

Lemma all2_refl {A : Type} (f : A -> A -> bool) (l : list A) :
  (forall x, f x x = true) -> all2 f l l = true.
Proof.
  intros Hf. induction l as [|x l IH]; cbn; [reflexivity|].
  now rewrite Hf, IH.
Qed.

Lemma same_cell_refl (v : scalar) : same_cell v v = true.
Proof.
  destruct v; cbn; [reflexivity | apply Z.eqb_refl | | apply String.eqb_refl].
  apply Qeq_bool_iff. reflexivity.
Qed.

Lemma DataFrame_equals_refl (df : DataFrame) : DataFrame_equals df df = true.
Proof.
  apply all2_refl. intros [label r]. cbn [fst snd].
  rewrite Nat.eqb_refl. apply all2_refl. intros [c v]. cbn [fst snd].
  now rewrite String.eqb_refl, same_cell_refl.
Qed.

(** ** Running the split on a database that holds the table *)

(** Runs the split up to its division, given what the connection's
    database and its table are; then on to the draw. *)
Ltac run_to_division Hdb Htab :=
  unfold create_random_samples, bind, con_sql;
  cbn [disk log]; rewrite ?Hdb; cbn [run_sql]; rewrite ?Htab;
  cbn [fetchone_0 ret]; unfold math_ceil_div.

Ltac run_to_draw Htab :=
  cbn [ret disk write_db log]; rewrite String.eqb_refl;
  cbn [run_sql]; rewrite ?Htab; unfold DataFrame_sample.

Section Partition.

Context {G : RandomGen}.

Variables (w : world) (con : string) (d : database) (t : table).
Hypothesis Hcon : disk w con = Some d.
Hypothesis Htable : titanic d = Some t.

Lemma shuffled_rows_of_perm (seed : Z) :
  Permutation (map snd (shuffled_rows_of t seed)) t.
Proof.
  unfold shuffled_rows_of. rewrite reset_index_rows.
  transitivity (map snd (fetchdf t)); [|now rewrite fetchdf_rows].
  apply Permutation_map, take_permutation.
  rewrite fetchdf_length. apply permutation_spec.
Qed.

Lemma shuffled_rows_of_length (seed : Z) :
  List.length (shuffled_rows_of t seed) = List.length t.
Proof.
  rewrite <- (length_map snd).
  apply Permutation_length, shuffled_rows_of_perm.
Qed.

Lemma create_random_samples_returns (n_sample seed : Z) :
  n_sample <> 0 -> 0 <= seed < 2 ^ 32 ->
  fst (create_random_samples con n_sample seed w)
  = Return (sample_loop (shuffled_rows_of t seed)
              (ceil_div (Z.of_nat (List.length t)) n_sample)
              (range n_sample) ([], [])).
Proof.
  intros Hn Hseed. run_to_division Hcon Htable.
  destruct (Z.eqb_spec n_sample 0) as [?|_]; [contradiction|].
  run_to_draw Htable.
  replace ((0 <=? seed) && (seed <? 2 ^ 32)) with true
    by (symmetry; apply andb_true_iff; split;
        [apply Z.leb_le | apply Z.ltb_lt]; lia).
  cbn [ret fst]. unfold shuffled_rows_of. now rewrite fetchdf_length.
Qed.

Lemma create_random_samples_chunks (n_sample seed : Z) :
  1 <= n_sample -> 0 <= seed < 2 ^ 32 ->
  let r := Z.to_nat (ceil_div (Z.of_nat (List.length t)) n_sample) in
  fst (create_random_samples con n_sample seed w)
  = Return
      (map (fun i => chunk r i (shuffled_rows_of t seed))
         (seq 0 (Z.to_nat n_sample)),
       map (fun i => List.length (chunk r i (shuffled_rows_of t seed)))
         (seq 0 (Z.to_nat n_sample))).
Proof.
  intros Hn Hseed r.
  rewrite create_random_samples_returns by lia.
  rewrite sample_loop_chunks; [reflexivity|].
  apply ceil_div_nonneg; lia.
Qed.

(** The chunk size times the number of samples covers the table, with
    less than one row per sample to spare. *)
Lemma rows_per_sample_covers (n_sample : Z) :
  1 <= n_sample ->
  let r := Z.to_nat (ceil_div (Z.of_nat (List.length t)) n_sample) in
  (List.length t <= Z.to_nat n_sample * r
   < List.length t + Z.to_nat n_sample)%nat.
Proof.
  intros Hn r.
  pose proof (ceil_div_covers (Z.of_nat (List.length t)) n_sample).
  pose proof (ceil_div_tight (Z.of_nat (List.length t)) n_sample).
  pose proof (ceil_div_nonneg (Z.of_nat (List.length t)) n_sample).
  subst r. nia.
Qed.

(** C1, as the code has it: for a table of R rows and n >= 1, with
    c = ceil(R / n), sample i (counted from 0) has min(c, R - i*c) rows,
    the difference cut off at 0: full chunks of c rows come first, then one
    shorter chunk with the remainder, then empty samples.  No sample has
    more than c rows, and a table of 23 rows cut into 5 samples yields the
    sizes [5,5,5,5,3], whatever the seed. *)
Theorem sample_sizes_ceiling_chunks (n_sample seed : Z) :
  1 <= n_sample -> 0 <= seed < 2 ^ 32 ->
  let R := List.length t in
  let c := Z.to_nat (ceil_div (Z.of_nat R) n_sample) in
  exists samples sample_size,
    fst (create_random_samples con n_sample seed w)
    = Return (samples, sample_size)
    /\ sample_size = map (@List.length _) samples
    /\ sample_size
       = map (fun i => Nat.min c (R - i * c)) (seq 0 (Z.to_nat n_sample))
    /\ (R <= Z.to_nat n_sample * c < R + Z.to_nat n_sample)%nat
    /\ Forall (fun s => (s <= c)%nat) sample_size
    /\ (R = 23%nat -> n_sample = 5 ->
        sample_size = [5; 5; 5; 5; 3]%nat).
Proof.
  intros Hn Hseed R c.
  assert (Hsizes :
            map (fun i => List.length (chunk c i (shuffled_rows_of t seed)))
              (seq 0 (Z.to_nat n_sample))
            = map (fun i => Nat.min c (R - i * c))
                (seq 0 (Z.to_nat n_sample))).
  { apply map_ext. intros i.
    now rewrite chunk_length, shuffled_rows_of_length. }
  pose proof (create_random_samples_chunks n_sample seed Hn Hseed) as Hrun.
  cbv zeta in Hrun. fold R c in Hrun.
  eexists _, _. split; [exact Hrun|].
  split; [now rewrite map_map|].
  split; [exact Hsizes|].
  split; [now apply rows_per_sample_covers|].
  split.
  - rewrite Hsizes. apply Forall_forall. intros s Hin.
    apply in_map_iff in Hin. destruct Hin as (i & <- & _). lia.
  - intros HR Hfive. rewrite Hsizes. subst c. rewrite Hfive.
    unfold R in *. rewrite HR. reflexivity.
Qed.


Lemma concat_samples_restores (samples : list DataFrame) (w0 : world) :
  increasing_ids t -> samples <> [] ->
  Permutation (map snd (List.concat samples)) t ->
  concat_samples samples w0 = (Return (fetchdf t), w0).
Proof.
  intros Hinc Hsome Hperm. unfold concat_samples, bind.
  destruct samples as [|df samples']; [contradiction|].
  cbn [pd_concat ret].
  destruct (sort_values_restores t (List.concat (df :: samples')) w0 Hinc Hperm)
    as (sorted & -> & Hrows).
  unfold ret. f_equal. f_equal. now apply reset_index_of_rows.
Qed.

(** C2, as the code has it: for every table, n >= 1 and a valid seed, the
    split returns samples whose rows, taken together, are the rows of the
    table, each as often as the table has it; when the table's identifiers
    are unique, every identifier occurs once in the samples taken together,
    hence in exactly one sample.  When the identifiers increase along the
    stored rows (as ingestion leaves them), the cross-check cell
    (concatenate, sort by id, reset the index) returns the frame of the
    original table, so [identical] is true. *)
Theorem samples_recombine (n_sample seed : Z) :
  1 <= n_sample -> 0 <= seed < 2 ^ 32 ->
  exists samples sample_size,
    fst (create_random_samples con n_sample seed w)
    = Return (samples, sample_size)
    /\ Permutation (map snd (List.concat samples)) t
    /\ (forall i,
          count_occ Z.eq_dec (ids_of (map snd (List.concat samples))) i
          = count_occ Z.eq_dec (ids_of t) i)
    /\ (NoDup (ids_of t) ->
        forall i, In i (ids_of t) ->
          count_occ Z.eq_dec (ids_of (map snd (List.concat samples))) i
          = 1%nat
          /\ exists k, (k < List.length samples)%nat
               /\ In i (ids_of (map snd (nth k samples [])))
               /\ forall k', In i (ids_of (map snd (nth k' samples []))) ->
                             k' = k)
    /\ (increasing_ids t ->
        let w' := snd (create_random_samples con n_sample seed w) in
        fst (concat_samples samples w') = Return (fetchdf t)
        /\ fst (identical con samples w') = Return true).
Proof.
  intros Hn Hseed.
  pose proof (create_random_samples_chunks n_sample seed Hn Hseed) as Hrun.
  cbv zeta in Hrun.
  set (c := Z.to_nat (ceil_div (Z.of_nat (List.length t)) n_sample)) in *.
  set (samples := map (fun i => chunk c i (shuffled_rows_of t seed))
                    (seq 0 (Z.to_nat n_sample))) in *.
  assert (Hjoin : List.concat samples = shuffled_rows_of t seed).
  { apply concat_chunks. rewrite shuffled_rows_of_length.
    apply (rows_per_sample_covers n_sample Hn). }
  assert (Hperm : Permutation (map snd (List.concat samples)) t)
    by (rewrite Hjoin; apply shuffled_rows_of_perm).
  assert (Hsome : samples <> []).
  { unfold samples. destruct (Z.to_nat n_sample) eqn:E; [lia|discriminate]. }
  assert (Hcount : forall i,
             count_occ Z.eq_dec (ids_of (map snd (List.concat samples))) i
             = count_occ Z.eq_dec (ids_of t) i).
  { intros i. apply Permutation_count_occ, ids_of_perm, Hperm. }
  eexists samples, _. split; [exact Hrun|].
  split; [exact Hperm|]. split; [exact Hcount|]. split.
  - intros Hnodup i Hin.
    assert (Hone : count_occ Z.eq_dec
                     (ids_of (map snd (List.concat samples))) i = 1%nat).
    { rewrite Hcount. now apply NoDup_count_occ'. }
    split; [exact Hone|].
    rewrite ids_of_concat in Hone.
    destruct (once_in_concat _ _ Hone) as (k & Hk & Honly).
    assert (Hnth : forall j,
               nth j (map (fun df => ids_of (map snd df)) samples) []
               = ids_of (map snd (nth j samples [])))
      by (intros j;
          exact (map_nth (fun df => ids_of (map snd df)) samples [] j)).
    rewrite Hnth in Hk. exists k. repeat split.
    + destruct (Nat.lt_ge_cases k (List.length samples)) as [?|Hge];
        [assumption|].
      rewrite nth_overflow in Hk by exact Hge. contradiction.
    + exact Hk.
    + intros k' Hk'. apply Honly. now rewrite Hnth.
  - intros Hinc w'.
    assert (Hw' : unchanged w w') by apply frame_create_random_samples.
    split.
    + now rewrite concat_samples_restores.
    + unfold identical, bind, con_sql. cbn [disk log].
      destruct Hw' as (Hdisk & _). rewrite Hdisk, Hcon. cbn [run_sql].
      rewrite Htable. rewrite concat_samples_restores by assumption.
      cbn [ret fst]. now rewrite DataFrame_equals_refl.
Qed.

Lemma create_random_samples_zero (seed : Z) :
  fst (create_random_samples con 0 seed w) = Raise ZeroDivisionError.
Proof.
  now run_to_division Hcon Htable.
Qed.

(** Every way the split can end on such a database. *)
Lemma create_random_samples_outcome (n_sample seed : Z) :
  fst (create_random_samples con n_sample seed w)
  = if n_sample =? 0 then Raise ZeroDivisionError
    else if (0 <=? seed) && (seed <? 2 ^ 32) then
      Return (sample_loop (shuffled_rows_of t seed)
                (ceil_div (Z.of_nat (List.length t)) n_sample)
                (range n_sample) ([], []))
    else Raise ValueError.
Proof.
  destruct (Z.eqb_spec n_sample 0) as [->|Hn];
    [apply create_random_samples_zero|].
  destruct ((0 <=? seed) && (seed <? 2 ^ 32)) eqn:Hseed.
  - apply andb_true_iff in Hseed. destruct Hseed as [Hlo Hhi].
    apply Z.leb_le in Hlo. apply Z.ltb_lt in Hhi.
    apply create_random_samples_returns; lia.
  - run_to_division Hcon Htable.
    destruct (Z.eqb_spec n_sample 0) as [?|_]; [contradiction|].
    run_to_draw Htable. now rewrite Hseed.
Qed.

(** Whatever the split returns, the rows of its samples are rows of the
    table. *)
Lemma samples_hold_table_rows (n_sample seed : Z)
  (samples : list DataFrame) (sample_size : list nat) :
  fst (create_random_samples con n_sample seed w)
  = Return (samples, sample_size) ->
  forall sample x, In sample samples -> In x sample -> In (snd x) t.
Proof.
  rewrite create_random_samples_outcome.
  destruct (n_sample =? 0); [discriminate|].
  destruct ((0 <=? seed) && (seed <? 2 ^ 32)); [|discriminate].
  rewrite sample_loop_spec. cbn [fst snd app].
  intros [= <- _] sample x Hsample Hx.
  apply in_map_iff in Hsample. destruct Hsample as (i & <- & _).
  apply iloc_subset in Hx.
  eapply Permutation_in; [apply (shuffled_rows_of_perm seed)|].
  now apply in_map.
Qed.

(** The statements the split sends: the count, and the rows unless the
    division has already failed. *)
Lemma create_random_samples_log (n_sample seed : Z) :
  executed (snd (create_random_samples con n_sample seed w))
  = executed w
    ++ (if n_sample =? 0 then [SELECT_COUNT_FROM_titanic]
        else [SELECT_COUNT_FROM_titanic; SELECT_ALL_FROM_titanic]).
Proof.
  run_to_division Hcon Htable.
  destruct (n_sample =? 0); [reflexivity|].
  run_to_draw Htable.
  destruct ((0 <=? seed) && (seed <? 2 ^ 32)); cbn;
    now rewrite <- app_assoc.
Qed.

(** C4, as the code has it: the split does not check [n_sample].  With
    n = 0 it fails with ZeroDivisionError when it divides, after the row
    count has been queried and before the rows are fetched or shuffled.
    With n < 0 (and a valid seed) it raises nothing: the rows are fetched
    and shuffled, the loop runs no round, and it returns no sample. *)
Theorem n_sample_not_validated (n_sample seed : Z) :
  n_sample <= 0 -> 0 <= seed < 2 ^ 32 ->
  let run := create_random_samples con n_sample seed w in
  (n_sample = 0 ->
   fst run = Raise ZeroDivisionError
   /\ executed (snd run) = executed w ++ [SELECT_COUNT_FROM_titanic])
  /\ (n_sample < 0 ->
      fst run = Return ([], [])
      /\ executed (snd run)
         = executed w ++ [SELECT_COUNT_FROM_titanic; SELECT_ALL_FROM_titanic]).
Proof.
  intros Hn Hseed run. split.
  - intros ->. split.
    + apply create_random_samples_zero.
    + apply create_random_samples_log.
  - intros Hneg. split.
    + unfold run. rewrite create_random_samples_returns by lia.
      unfold range. now destruct n_sample as [|p|p]; [lia | lia |].
    + unfold run. rewrite create_random_samples_log.
      now destruct (Z.eqb_spec n_sample 0) as [?|_]; [lia|].
Qed.

End Partition.

(** ** The kernel's frames *)

Section Kernel.

Context {G : RandomGen}.

(** New frames go after the frames there are, at the next addresses. *)
Lemma new_frames_run (dfs : list DataFrame) (k : kernel) :
  new_frames dfs k
  = (Return (seq (List.length (frames k)) (List.length dfs)),
     {| outside := outside k;
        frames := frames k ++ dfs;
        displayed := displayed k |}).
Proof.
  revert k. induction dfs as [|df dfs IH]; intros k.
  - cbn. rewrite app_nil_r. now destruct k.
  - cbn [new_frames]. unfold k_bind at 1. cbn [new_frame].
    unfold k_bind at 1. rewrite IH. cbn [outside frames displayed k_ret].
    rewrite length_app, <- app_assoc. cbn [List.length app seq].
    now rewrite Nat.add_1_r.
Qed.

Lemma call_create_random_samples_run (con : string) (n_sample seed : Z)
  (k : kernel) :
  call_create_random_samples con n_sample seed k
  = (match fst (create_random_samples con n_sample seed (outside k)) with
     | Return (samples, sample_size) =>
         Return (seq (List.length (frames k)) (List.length samples),
                 sample_size)
     | Raise e => Raise e
     end,
     {| outside := snd (create_random_samples con n_sample seed (outside k));
        frames :=
          frames k
          ++ samples_returned
               (fst (create_random_samples con n_sample seed (outside k)));
        displayed := displayed k |}).
Proof.
  unfold call_create_random_samples, k_bind at 1, in_world.
  destruct (create_random_samples con n_sample seed (outside k))
    as [[[samples sample_size]|e] w'].
  - cbn [fst snd samples_returned]. unfold k_bind. rewrite new_frames_run.
    reflexivity.
  - cbn [fst snd samples_returned]. now rewrite app_nil_r.
Qed.



(** The library reads the frame it is handed; the kernel is as it was,
    whether there is a report or an exception. *)
Lemma pb_interrogate_leaves (data : nat) (rule_set : list Rule)
  (k : kernel) :
  snd (pb_interrogate data rule_set k) = k.
Proof.
  unfold pb_interrogate, k_bind, frame_at.
  destruct (nth_error (frames k) data) as [df|]; [|reflexivity].
  now destruct (interrogation df rule_set).
Qed.

(** What the library returns for the frame at an address. *)
Lemma pb_interrogate_at (data : nat) (rule_set : list Rule) (k : kernel)
  (df : DataFrame) :
  nth_error (frames k) data = Some df ->
  fst (pb_interrogate data rule_set k) = interrogation df rule_set.
Proof.
  intros Hdf. unfold pb_interrogate, k_bind, frame_at. rewrite Hdf.
  now destruct (interrogation df rule_set).
Qed.

End Kernel.

(** ** Reproducibility and side effects *)

Section Reproducibility.

Context {G : RandomGen}.

(** C3: the outcome of the split (the samples with their rows and labels,
    the sizes, or the exception) is a function of the database behind the
    connection, [n_sample] and the seed.  Two worlds that agree on that
    database give the same outcome, whatever NumPy's global generator,
    the statements run before, the other files or the network hold. *)
Theorem create_random_samples_deterministic (w1 w2 : world) (con : string)
  (n_sample seed : Z) :
  disk w1 con = disk w2 con ->
  fst (create_random_samples con n_sample seed w1)
  = fst (create_random_samples con n_sample seed w2).
Proof.
  intros Hsame.
  unfold create_random_samples, bind, con_sql.
  cbn [disk log]. rewrite Hsame.
  destruct (disk w2 con) as [d|]; [|reflexivity].
  cbn [run_sql]. destruct (titanic d) as [t|] eqn:Ht; [|reflexivity].
  cbn [fetchone_0 ret]. unfold math_ceil_div.
  destruct (n_sample =? 0); [reflexivity|].
  run_to_draw Ht.
  now destruct ((0 <=? seed) && (seed <? 2 ^ 32)).
Qed.


End Reproducibility.

(** ** Ingestion assigns the identifiers *)

Lemma get_app_new (column : string) (r : record) (v : scalar) :
  get column r = None -> get column (r ++ [(column, v)]) = Some v.
Proof.
  induction r as [|[c u] r IH]; cbn.
  - now rewrite String.eqb_refl.
  - destruct (String.eqb c column); [discriminate | exact IH].
Qed.

Lemma get_app_old (column : string) (r extra : record) (v : scalar) :
  get column r = Some v -> get column (r ++ extra) = Some v.
Proof.
  induction r as [|[c u] r IH]; cbn; [discriminate|].
  destruct (String.eqb c column); [trivial | exact IH].
Qed.

(** Numbering a table whose rows already have identifiers leaves the
    column [id] as it reads. *)
Lemma row_number_keeps_ids (k : Z) (t : table) :
  Forall (fun r => row_id r <> None) t ->
  map row_id (row_number k t) = map row_id t.
Proof.
  intros Hhave. revert k.
  induction Hhave as [|r t Hr _ IH]; intros k; [reflexivity|].
  cbn [row_number map]. f_equal; [|apply IH].
  unfold row_id, int_of in *.
  destruct (get "id" r) as [v|] eqn:Hv; [|contradiction].
  now rewrite (get_app_old _ _ _ _ Hv).
Qed.

Lemma row_number_length (k : Z) (rows : table) :
  List.length (row_number k rows) = List.length rows.
Proof.
  revert k. induction rows as [|r rows IH]; intros k; cbn; [reflexivity|].
  now rewrite IH.
Qed.

(** Row numbers are consecutive from [k] on. *)
Lemma row_number_ids (k : Z) (rows : table) :
  Forall (fun r => get "id" r = None) rows ->
  map row_id (row_number k rows)
  = map (fun j => Some (k + Z.of_nat j)) (seq 0 (List.length rows)).
Proof.
  intros Hnew. revert k.
  induction Hnew as [|r rows Hr _ IH]; intros k; [reflexivity|].
  cbn [row_number map List.length seq]. f_equal.
  - unfold row_id, int_of. rewrite get_app_new by exact Hr.
    f_equal. lia.
  - rewrite IH, <- seq_shift, map_map. apply map_ext. intros j.
    f_equal. lia.
Qed.

Lemma consecutive_sorted (k : Z) (n : nat) :
  StronglySorted Z.lt (map (fun j => k + Z.of_nat j) (seq 0 n)).
Proof.
  revert k. induction n as [|n IH]; intros k; [constructor|].
  cbn [seq map]. constructor.
  - rewrite <- seq_shift, map_map.
    erewrite map_ext; [apply (IH (k + 1))|]. intros j. cbn beta. lia.
  - apply Forall_forall. intros z Hz. apply in_map_iff in Hz.
    destruct Hz as (j & <- & Hj). apply in_seq in Hj. lia.
Qed.

Lemma row_number_increasing (k : Z) (rows : table) :
  Forall (fun r => get "id" r = None) rows ->
  increasing_ids (row_number k rows).
Proof.
  intros Hnew.
  exists (map (fun j => k + Z.of_nat j) (seq 0 (List.length rows))).
  split; [|apply consecutive_sorted].
  rewrite row_number_ids by exact Hnew. now rewrite map_map.
Qed.

(** The rows of a numbered table are the rows it was made from, each with
    the [id] column added. *)
Lemma row_number_keeps_rows (k : Z) (rows : table) :
  Forall2 (fun r r' => exists i, r' = r ++ [("id", VInt i)])
    rows (row_number k rows).
Proof.
  revert k. induction rows as [|r rows IH]; intros k; cbn; constructor.
  - now exists k.
  - apply IH.
Qed.

Section Ingestion.

Context {G : RandomGen}.

Variables (w : world) (db_path url : string) (rows : table).
Hypothesis Hfresh : disk w db_path = None.
Hypothesis Hserved : fetch w url = Some rows.

(** On a path with no database yet, ingestion loads the CSV and leaves one
    table, [titanic], with the numbered rows. *)
Lemma get_create_titanic_db_fresh (force_create : bool) :
  let run := get_create_titanic_db db_path url force_create w in
  fst run = Return db_path
  /\ disk (snd run) db_path
     = Some {| titanic := Some (row_number 1 rows);
               titanic_with_id := None |}.
Proof.
  cbv zeta.
  unfold get_create_titanic_db, bind, path_exists, duckdb_connect, con_sql.
  rewrite Hfresh. cbn [negb orb disk write_db log fetch].
  repeat (rewrite ?Hfresh, ?String.eqb_refl, ?Hserved;
          cbn [run_sql titanic titanic_with_id empty_database
                 disk write_db log fetch fst snd ret]).
  split; reflexivity.
Qed.

(** Once the database is there, the call connects and changes nothing. *)
Lemma get_create_titanic_db_again (w1 : world) (d : database)
  (url' : string) :
  disk w1 db_path = Some d ->
  get_create_titanic_db db_path url' false w1 = (Return db_path, w1).
Proof.
  intros Hd.
  unfold get_create_titanic_db, bind, path_exists, duckdb_connect.
  rewrite Hd. cbn [negb orb]. now rewrite Hd.
Qed.

(** Forcing the creation on a database that holds the table numbers its
    rows once more. *)
Lemma get_create_titanic_db_forced (w1 : world) (t : table) (url' : string) :
  disk w1 db_path = Some {| titanic := Some t; titanic_with_id := None |} ->
  disk (snd (get_create_titanic_db db_path url' true w1)) db_path
  = Some {| titanic := Some (row_number 1 t); titanic_with_id := None |}.
Proof.
  intros Hd.
  unfold get_create_titanic_db, bind, path_exists, duckdb_connect, con_sql.
  rewrite Hd. cbn [negb orb disk write_db log fetch].
  repeat (rewrite ?Hd, ?String.eqb_refl;
          cbn [run_sql titanic titanic_with_id
                 disk write_db log fetch fst snd ret]).
  reflexivity.
Qed.

(** C9: ingestion on a fresh path, from a CSV with no [id] column, builds
    the table [titanic] whose rows are the CSV's rows with an [id] column
    holding 1, 2, ..., R in order: every row has an identifier and no two
    rows share one.  Later operations do not reassign it: after the split
    (with any arguments, however it ends) the database holds the same
    table, and every row of every sample is a row of that table, identifier
    included; after calling ingestion again, forced or not, the table's
    [id] column reads as before. *)
Theorem ingestion_assigns_unique_ids (force_create : bool) :
  Forall (fun r => get "id" r = None) rows ->
  let w1 := snd (get_create_titanic_db db_path url force_create w) in
  exists t,
    fst (get_create_titanic_db db_path url force_create w) = Return db_path
    /\ disk w1 db_path = Some {| titanic := Some t; titanic_with_id := None |}
    /\ Forall2 (fun r r' => exists i, r' = r ++ [("id", VInt i)]) rows t
    /\ map row_id t
       = map (fun k => Some (Z.of_nat k)) (seq 1 (List.length rows))
    /\ NoDup (map row_id t)
    /\ (forall i j ri rj,
          nth_error t i = Some ri -> nth_error t j = Some rj -> i <> j ->
          row_id ri <> row_id rj)
    /\ (forall n_sample seed,
          let run := create_random_samples db_path n_sample seed w1 in
          disk (snd run) db_path = disk w1 db_path
          /\ forall samples sample_size,
               fst run = Return (samples, sample_size) ->
               forall sample x,
                 In sample samples -> In x sample -> In (snd x) t)
    /\ (forall url' force_create',
          exists t',
            disk (snd (get_create_titanic_db db_path url' force_create' w1))
              db_path
            = Some {| titanic := Some t'; titanic_with_id := None |}
            /\ map row_id t' = map row_id t).
Proof.
  intros Hnew w1.
  destruct (get_create_titanic_db_fresh force_create) as [Hret Hdb].
  fold w1 in Hdb.
  assert (Hids : map row_id (row_number 1 rows)
                 = map (fun k => Some (Z.of_nat k))
                     (seq 1 (List.length rows))).
  { rewrite row_number_ids by exact Hnew.
    rewrite <- seq_shift, map_map. apply map_ext. intros j.
    f_equal. lia. }
  assert (Hdistinct : NoDup (map row_id (row_number 1 rows))).
  { rewrite Hids. apply Finite.Injective_map_NoDup; [|apply seq_NoDup].
    intros a b [= Hab]. lia. }
  exists (row_number 1 rows).
  split; [exact Hret|]. split; [exact Hdb|].
  split; [apply row_number_keeps_rows|].
  split; [exact Hids|]. split; [exact Hdistinct|]. split; [|split].
  - intros i j ri rj Hi Hj Hij Heq. apply Hij.
    apply (proj1 (NoDup_nth_error _) Hdistinct).
    + rewrite length_map. apply nth_error_Some. congruence.
    + rewrite !nth_error_map, Hi, Hj. cbn. now rewrite Heq.
  - intros n_sample seed run. split.
    + apply frame_create_random_samples.
    + intros samples sample_size Hrun.
      eapply samples_hold_table_rows; [exact Hdb | reflexivity | exact Hrun].
  - intros url' [|].
    + exists (row_number 1 (row_number 1 rows)).
      split; [now apply get_create_titanic_db_forced|].
      apply row_number_keeps_ids.
      rewrite <- (Forall_map row_id (fun i => i <> None)), Hids, Forall_map.
      apply Forall_forall. discriminate.
    + exists (row_number 1 rows).
      now erewrite get_create_titanic_db_again by exact Hdb.
Qed.

End Ingestion.

(** ** The validation engine *)

Lemma in_ids_of (i : Z) (t : table) :
  In i (ids_of t) <-> exists r, In r t /\ row_id r = Some i.
Proof.
  unfold ids_of. rewrite in_flat_map. split.
  - intros (r & Hr & Hi). exists r. split; [exact Hr|].
    destruct (row_id r); [|contradiction].
    destruct Hi as [->|[]]. reflexivity.
  - intros (r & Hr & Hi). exists r. split; [exact Hr|].
    rewrite Hi. now left.
Qed.

Lemma unique_ids_inj (t : table) (r r' : record) :
  unique_ids t -> In r t -> In r' t -> row_id r = row_id r' -> r = r'.
Proof.
  intros [Hnodup _]. induction t as [|x t IH]; [contradiction|].
  cbn in Hnodup. inversion Hnodup as [|? ? Hnew Hrest]; subst.
  intros [->|Hr] [->|Hr'] Heq.
  - reflexivity.
  - exfalso. apply Hnew. rewrite Heq. now apply in_map.
  - exfalso. apply Hnew. rewrite <- Heq. now apply in_map.
  - now apply IH.
Qed.

Lemma increasing_ids_unique (t : table) : increasing_ids t -> unique_ids t.
Proof.
  intros Hinc. split.
  - destruct (increasing_ids_keys t Hinc) as [_ (ids & Hof & Hmap & _)].
    rewrite Hmap. apply Finite.Injective_map_NoDup; [congruence|].
    rewrite <- Hof. now apply increasing_ids_NoDup.
  - eapply Forall_impl; [|apply increasing_ids_have; exact Hinc].
    cbn beta. congruence.
Qed.

(** The identifiers a rule's result lists are those of the rows that do
    not pass it, and the counts add up. *)
Lemma failing_row_ids_spec (t : table) (rule : Rule) (i : Z) :
  In i (failing_row_ids (evaluate t rule))
  <-> exists r, In r t /\ row_id r = Some i /\ passes rule r = false.
Proof.
  cbn [failing_row_ids evaluate]. rewrite in_ids_of. split.
  - intros (r & Hr & Hi). apply filter_In in Hr. destruct Hr as [Hr Hfail].
    exists r. repeat split; try assumption. now apply negb_true_iff.
  - intros (r & Hr & Hi & Hfail). exists r. split; [|exact Hi].
    apply filter_In. split; [exact Hr|]. now apply negb_true_iff.
Qed.

Lemma filter_split_length {A : Type} (f : A -> bool) (l : list A) :
  (List.length (filter f l)
   + List.length (filter (fun x => negb (f x)) l))%nat
  = List.length l.
Proof.
  induction l as [|x l IH]; [reflexivity|].
  cbn. destruct (f x); cbn; lia.
Qed.

Lemma filter_split_perm {A : Type} (f : A -> bool) (l : list A) :
  Permutation (filter f l ++ filter (fun x => negb (f x)) l) l.
Proof.
  induction l as [|x l IH]; [reflexivity|].
  cbn. destruct (f x); cbn.
  - now constructor.
  - rewrite <- Permutation_middle. now constructor.
Qed.

Lemma Qle_bool_both (lo hi q : Q) :
  Qle_bool lo q && Qle_bool q hi = true <-> (lo <= q)%Q /\ (q <= hi)%Q.
Proof. now rewrite andb_true_iff, !Qle_bool_iff. Qed.

(** C5: a Between rule with PassOnNull passes a row whose value is the
    number q iff min <= q <= max, both ends included, and passes a row
    whose value is null; over a table it lists exactly the identifiers of
    the rows that do not pass, and passed and failing rows add up to the
    rows evaluated.  The notebook's eighth step is
    Between("age", 0, 70, PassOnNull); on the ten rows of scenario A it
    lists one failing row, the one aged 85 (row 6), and the row with the
    missing age (row 4) passes. *)
Theorem between_pass_on_null (column : string) (lo hi : Q) :
  let rule := Between column lo hi PassOnNull in
  (forall r v q, get column r = Some v -> number v = Some q ->
     (passes rule r = true <-> (lo <= q)%Q /\ (q <= hi)%Q))
  /\ (forall r, get column r = Some VNull -> passes rule r = true)
  /\ (forall t i,
        In i (failing_row_ids (evaluate t rule))
        <-> exists r, In r t /\ row_id r = Some i /\ passes rule r = false)
  /\ (forall t,
        (rows_passed (evaluate t rule)
         + List.length (filter (fun r => negb (passes rule r)) t))%nat
        = rows_evaluated (evaluate t rule))
  /\ nth_error titanic_rules 7 = Some (Between "age" 0 70 PassOnNull)
  /\ (let result := evaluate scenario_A (Between "age" 0 70 PassOnNull) in
      List.length scenario_A = 10%nat
      /\ failing_row_ids result = [6]
      /\ rows_passed result = 9%nat
      /\ map (get "age")
           (filter (fun r => negb (passes (Between "age" 0 70 PassOnNull) r))
              scenario_A)
         = [Some (VInt 85)]
      /\ map (fun r => (row_id r, passes (Between "age" 0 70 PassOnNull) r))
           (filter (fun r => match get "age" r with
                             | Some VNull => true
                             | _ => false
                             end) scenario_A)
         = [(Some 4, true)]).
Proof.
  intros rule. split; [|split; [|split; [|split; [|split]]]].
  - intros r v q Hv Hq. unfold rule. cbn [passes]. rewrite Hv.
    destruct v; cbn in Hq; try discriminate;
      injection Hq as <-; apply Qle_bool_both.
  - intros r Hv. unfold rule. cbn [passes]. now rewrite Hv.
  - intros t i. apply failing_row_ids_spec.
  - intros t. apply filter_split_length.
  - reflexivity.
  - cbv zeta. repeat split; reflexivity.
Qed.

Lemma member_string (s : string) (allowed_values : list scalar) :
  member (VStr s) allowed_values = true <-> In (VStr s) allowed_values.
Proof.
  unfold member. rewrite existsb_exists. cbn [number]. split.
  - intros (a & Ha & Heq). destruct a; try discriminate.
    apply String.eqb_eq in Heq. now subst.
  - intros Hin. exists (VStr s). split; [exact Hin|].
    apply String.eqb_refl.
Qed.

Lemma member_number (v : scalar) (x : Q) (allowed_values : list scalar) :
  number v = Some x ->
  member v allowed_values = true
  <-> exists a y, In a allowed_values /\ number a = Some y /\ (x == y)%Q.
Proof.
  intros Hx. unfold member. rewrite existsb_exists, Hx. split.
  - intros (a & Ha & Heq). destruct (number a) as [y|] eqn:Hy.
    + exists a, y. repeat split; try assumption. now apply Qeq_bool_iff.
    + destruct v; try discriminate; destruct a; discriminate.
  - intros (a & y & Ha & Hy & Heq). exists a. split; [exact Ha|].
    rewrite Hy. now apply Qeq_bool_iff.
Qed.

(** C6: an InSet rule passes a row whose value is a string iff the string
    is one of the allowed values, and a row whose value is a number iff an
    allowed value is that number; a row whose value is null fails, whatever
    the allowed values; over a table the rule lists exactly the identifiers
    of the rows that do not pass.  The notebook's eleventh step is
    InSet("embarked", {C, Q, S}); on the five rows of scenario B it lists
    two failing rows, the one with X (row 4) and the one with the missing
    port (row 5). *)
Theorem in_set_null_fails (column : string) (allowed_values : list scalar) :
  let rule := InSet column allowed_values in
  (forall r s, get column r = Some (VStr s) ->
     (passes rule r = true <-> In (VStr s) allowed_values))
  /\ (forall r v x, get column r = Some v -> number v = Some x ->
        (passes rule r = true
         <-> exists a y, In a allowed_values /\ number a = Some y
                         /\ (x == y)%Q))
  /\ (forall r, get column r = Some VNull -> passes rule r = false)
  /\ (forall t i,
        In i (failing_row_ids (evaluate t rule))
        <-> exists r, In r t /\ row_id r = Some i /\ passes rule r = false)
  /\ nth_error titanic_rules 10 = Some (InSet "embarked" PORT_EMBARKED)
  /\ (let result := evaluate scenario_B (InSet "embarked" PORT_EMBARKED) in
      map (get "embarked") scenario_B
      = [Some (VStr "C"); Some (VStr "Q"); Some (VStr "S"); Some (VStr "X");
         Some VNull]
      /\ failing_row_ids result = [4; 5]
      /\ rows_passed result = 3%nat
      /\ map (get "embarked")
           (filter (fun r => negb (passes (InSet "embarked" PORT_EMBARKED) r))
              scenario_B)
         = [Some (VStr "X"); Some VNull]).
Proof.
  intros rule. split; [|split; [|split; [|split; [|split]]]].
  - intros r s Hv. unfold rule. cbn [passes]. rewrite Hv.
    apply member_string.
  - intros r v x Hv Hx. unfold rule. cbn [passes]. rewrite Hv.
    destruct v; cbn in Hx; try discriminate; now apply member_number.
  - intros r Hv. unfold rule. cbn [passes]. now rewrite Hv.
  - intros t i. apply failing_row_ids_spec.
  - reflexivity.
  - cbv zeta. repeat split; reflexivity.
Qed.

(** ** Sundering *)

Lemma passes_all_false (rule_set : list Rule) (r : record) :
  passes_all rule_set r = false
  <-> exists rule, In rule rule_set /\ passes rule r = false.
Proof.
  unfold passes_all. induction rule_set as [|rule rules IH]; cbn.
  - split; [discriminate | now intros (? & [] & _)].
  - rewrite andb_false_iff, IH. split.
    + intros [Hrule|(rule' & Hin & Hfail)]; [now exists rule; auto|].
      exists rule'. auto.
    + intros (rule' & [<-|Hin] & Hfail); [now left|].
      right. now exists rule'.
Qed.

Lemma overall_fail_row_ids_spec (t : table) (rule_set : list Rule) (i : Z) :
  In i (overall_fail_row_ids (interrogate t rule_set))
  <-> exists r, In r t /\ row_id r = Some i /\ passes_all rule_set r = false.
Proof.
  unfold overall_fail_row_ids, interrogate. cbn [results].
  rewrite nodup_In, in_concat. split.
  - intros (ids & Hids & Hi). rewrite map_map in Hids.
    apply in_map_iff in Hids. destruct Hids as (rule & <- & Hrule).
    apply failing_row_ids_spec in Hi. destruct Hi as (r & Hr & Hid & Hfail).
    exists r. repeat split; try assumption.
    apply passes_all_false. now exists rule.
  - intros (r & Hr & Hid & Hfail).
    apply passes_all_false in Hfail. destruct Hfail as (rule & Hrule & Hfail).
    exists (failing_row_ids (evaluate t rule)). split.
    + rewrite map_map. apply in_map_iff. now exists rule.
    + apply failing_row_ids_spec. now exists r.
Qed.

(** On a table with unique identifiers, a row is listed as failing iff it
    fails some rule itself. *)
Lemma listed_spec (t : table) (rule_set : list Rule) (r : record) :
  unique_ids t -> In r t ->
  listed (overall_fail_row_ids (interrogate t rule_set)) r
  = negb (passes_all rule_set r).
Proof.
  intros Huniq Hr.
  assert (Hsome : exists i, row_id r = Some i).
  { destruct Huniq as [_ Hall]. rewrite Forall_forall in Hall.
    specialize (Hall _ Hr). destruct (row_id r) as [i|]; [now exists i|].
    contradiction. }
  destruct Hsome as (i & Hi). unfold listed. rewrite Hi.
  destruct (passes_all rule_set r) eqn:Hpass; cbn [negb].
  - apply not_true_is_false. intros Hex.
    apply existsb_exists in Hex. destruct Hex as (j & Hj & Hij).
    apply Z.eqb_eq in Hij. subst j.
    apply overall_fail_row_ids_spec in Hj.
    destruct Hj as (r' & Hr' & Hi' & Hfail).
    assert (r' = r) by (apply (unique_ids_inj t); congruence).
    congruence.
  - apply existsb_exists. exists i. split; [|apply Z.eqb_refl].
    apply overall_fail_row_ids_spec. now exists r.
Qed.

(** C7: on a table with unique identifiers, sundering by the report of
    [interrogate] puts in the failing table exactly the rows that fail at
    least one rule and in the passing table the rows that pass every rule;
    the two tables together hold the rows of the table, each once, and no
    identifier is in both.  [get_sundered_data] is the passing table. *)
Theorem sunder_partitions (t : table) (rule_set : list Rule) :
  unique_ids t ->
  let report := interrogate t rule_set in
  let passing := fst (sunder t report) in
  let failing := snd (sunder t report) in
  (forall r, In r failing
             <-> In r t /\ exists rule,
                   In rule rule_set /\ passes rule r = false)
  /\ (forall r, In r passing
                <-> In r t /\ forall rule,
                      In rule rule_set -> passes rule r = true)
  /\ Permutation (passing ++ failing) t
  /\ (forall i, In i (ids_of passing) -> ~ In i (ids_of failing))
  /\ (forall i, In i (ids_of t)
                <-> In i (ids_of passing) \/ In i (ids_of failing))
  /\ (forall data, map snd data = t ->
        get_sundered_data data report = passing).
Proof.
  intros Huniq report passing failing.
  assert (Hfailing : failing = filter (fun r => negb (passes_all rule_set r)) t).
  { unfold failing, sunder. cbn [snd]. apply filter_ext_in.
    intros r Hr. now apply listed_spec. }
  assert (Hpassing : passing = filter (passes_all rule_set) t).
  { unfold passing, sunder. cbn [fst]. apply filter_ext_in.
    intros r Hr. unfold report. rewrite listed_spec by assumption.
    apply negb_involutive. }
  assert (Hin_failing : forall r, In r failing
            <-> In r t /\ exists rule,
                  In rule rule_set /\ passes rule r = false).
  { intros r. rewrite Hfailing, filter_In, negb_true_iff, passes_all_false.
    reflexivity. }
  assert (Hin_passing : forall r, In r passing
            <-> In r t /\ forall rule,
                  In rule rule_set -> passes rule r = true).
  { intros r. rewrite Hpassing, filter_In. unfold passes_all.
    now rewrite forallb_forall. }
  assert (Hperm : Permutation (passing ++ failing) t).
  { rewrite Hfailing, Hpassing. apply filter_split_perm. }
  split; [exact Hin_failing|]. split; [exact Hin_passing|].
  split; [exact Hperm|]. split; [|split].
  - intros i Hp Hf.
    apply in_ids_of in Hp. destruct Hp as (r & Hr & Hi).
    apply in_ids_of in Hf. destruct Hf as (r' & Hr' & Hi').
    apply Hin_passing in Hr. destruct Hr as [Hr Hpass].
    apply Hin_failing in Hr'. destruct Hr' as [Hr' (rule & Hrule & Hfail)].
    assert (r' = r) by (apply (unique_ids_inj t); congruence).
    subst r'. rewrite (Hpass _ Hrule) in Hfail. discriminate.
  - intros i. rewrite <- in_app_iff, <- ids_of_app. split; intros Hin.
    + eapply Permutation_in; [|exact Hin].
      apply ids_of_perm, Permutation_sym, Hperm.
    + eapply Permutation_in; [|exact Hin]. apply ids_of_perm, Hperm.
  - intros data Hdata. unfold get_sundered_data. now rewrite Hdata.
Qed.

(** * The notebook run on concrete data *)

Lemma passengers_without_id (n : nat) :
  Forall (fun r => get "id" r = None) (passengers n).
Proof.
  apply Forall_forall. intros r Hr. unfold passengers in Hr.
  apply in_map_iff in Hr. now destruct Hr as (i & <- & _).
Qed.

Lemma ingested_world_database (rows : table) :
  disk (ingested_world rows) "titanic.duckdb" = Some (ingested_database rows).
Proof. reflexivity. Qed.

(** 23 passengers cut into 5 samples with seed 42. *)
Lemma sample_sizes_23_by_5 :
  exists samples sample_size,
    fst (create_random_samples "titanic.duckdb" 5 42
           (ingested_world (passengers 23)))
    = Return (samples, sample_size)
    /\ sample_size = map (@List.length _) samples
    /\ sample_size = [5; 5; 5; 5; 3]%nat.
Proof.
  destruct (sample_sizes_ceiling_chunks
              (ingested_world (passengers 23)) "titanic.duckdb"
              (ingested_database (passengers 23))
              (row_number 1 (passengers 23))
              eq_refl eq_refl 5 42 ltac:(lia) ltac:(lia))
    as (samples & sample_size & Hrun & Hlen & _ & _ & _ & Hsizes).
  exists samples, sample_size.
  split; [exact Hrun|]. split; [exact Hlen|].
  apply Hsizes; reflexivity.
Defined.

(** The sizes of that run differ by two, and are not [5,5,5,4,4]. *)
Lemma sample_sizes_23_by_5_unbalanced :
  sizes_returned
    (fst (create_random_samples "titanic.duckdb" 5 DEFAULT_RANDOM_SEED
            (ingested_world (passengers 23))))
  = [5; 5; 5; 5; 3]%nat
  /\ sizes_returned
       (fst (create_random_samples "titanic.duckdb" 5 DEFAULT_RANDOM_SEED
               (ingested_world (passengers 23))))
     <> [5; 5; 5; 4; 4]%nat
  /\ spread
       (sizes_returned
          (fst (create_random_samples "titanic.duckdb" 5 DEFAULT_RANDOM_SEED
                  (ingested_world (passengers 23)))))
     = 2%nat.
Proof.
  assert (Hsizes :
            sizes_returned
              (fst (create_random_samples "titanic.duckdb" 5
                      DEFAULT_RANDOM_SEED (ingested_world (passengers 23))))
            = [5; 5; 5; 5; 3]%nat) by (vm_compute; reflexivity).
  rewrite Hsizes. split; [reflexivity|]. split; [discriminate | reflexivity].
Qed.


(** 8 passengers cut into 3 samples and put back together. *)
Lemma samples_recombine_8_by_3 :
  exists samples sample_size,
    fst (create_random_samples "titanic.duckdb" 3 42
           (ingested_world (passengers 8)))
    = Return (samples, sample_size)
    /\ Permutation (map snd (List.concat samples))
         (row_number 1 (passengers 8))
    /\ fst (identical "titanic.duckdb" samples
              (snd (create_random_samples "titanic.duckdb" 3 42
                      (ingested_world (passengers 8)))))
       = Return true.
Proof.
  destruct (samples_recombine
              (ingested_world (passengers 8)) "titanic.duckdb"
              (ingested_database (passengers 8))
              (row_number 1 (passengers 8))
              eq_refl eq_refl 3 42 ltac:(lia) ltac:(lia))
    as (samples & sample_size & Hrun & Hperm & _ & _ & Hsame).
  exists samples, sample_size.
  split; [exact Hrun|]. split; [exact Hperm|].
  apply Hsame. exists [1; 2; 3; 4; 5; 6; 7; 8].
  split; [reflexivity | repeat constructor].
Defined.

(** A table stored out of identifier order does not come back: sorting by
    id puts row 1 before row 2. *)
Lemma unordered_table_not_restored :
  let run := create_random_samples "titanic.duckdb" 1 DEFAULT_RANDOM_SEED
               unordered_world in
  map row_id unordered_table = [Some 2; Some 1]
  /\ NoDup (ids_of unordered_table)
  /\ map (map snd) (samples_returned (fst run)) = [unordered_table]
  /\ fst (concat_samples (samples_returned (fst run)) (snd run))
     = Return (fetchdf (rev unordered_table))
  /\ fst (identical "titanic.duckdb" (samples_returned (fst run)) (snd run))
     = Return false.
Proof.
  cbv zeta. split; [reflexivity|].
  split; [repeat constructor; cbn; intuition discriminate|].
  repeat split; vm_compute; reflexivity.
Qed.

(** The same table behind another global generator and another history
    gives the same samples. *)
Lemma same_samples_other_entropy :
  fst (create_random_samples "titanic.duckdb" 3 42
         (ingested_world (passengers 8)))
  = fst (create_random_samples "titanic.duckdb" 3 42
           (log SELECT_ALL_FROM_titanic
              (@set_np_random rotating_gen 2026
                 (ingested_world (passengers 8))))).
Proof.
  apply (create_random_samples_deterministic
           (ingested_world (passengers 8))
           (log SELECT_ALL_FROM_titanic
              (@set_np_random rotating_gen 2026
                 (ingested_world (passengers 8))))
           "titanic.duckdb" 3 42).
  reflexivity.
Defined.

(** [n_sample = 0] and [n_sample = -2] on 6 passengers. *)
Lemma n_sample_zero_and_negative :
  (fst (create_random_samples "titanic.duckdb" 0 42
          (ingested_world (passengers 6)))
   = Raise ZeroDivisionError
   /\ executed (snd (create_random_samples "titanic.duckdb" 0 42
                       (ingested_world (passengers 6))))
      = executed (ingested_world (passengers 6))
        ++ [SELECT_COUNT_FROM_titanic])
  /\ fst (create_random_samples "titanic.duckdb" (-2) 42
            (ingested_world (passengers 6)))
     = Return ([], []).
Proof.
  split.
  - apply (n_sample_not_validated
             (ingested_world (passengers 6)) "titanic.duckdb"
             (ingested_database (passengers 6))
             (row_number 1 (passengers 6))
             eq_refl eq_refl 0 42 ltac:(lia) ltac:(lia)).
    reflexivity.
  - apply (n_sample_not_validated
             (ingested_world (passengers 6)) "titanic.duckdb"
             (ingested_database (passengers 6))
             (row_number 1 (passengers 6))
             eq_refl eq_refl (-2) 42 ltac:(lia) ltac:(lia)).
    lia.
Defined.

(** A negative [n_sample] raises nothing, and [n_sample = 0] raises
    ZeroDivisionError after the count has been queried. *)
Lemma negative_n_sample_returns :
  fst (create_random_samples "titanic.duckdb" (-1) DEFAULT_RANDOM_SEED
         (ingested_world (passengers 23)))
  = Return ([], [])
  /\ fst (create_random_samples "titanic.duckdb" 0 DEFAULT_RANDOM_SEED
            (ingested_world (passengers 23)))
     = Raise ZeroDivisionError
  /\ executed
       (snd (create_random_samples "titanic.duckdb" 0 DEFAULT_RANDOM_SEED
               (ingested_world (passengers 23))))
     = [CREATE_TABLE_IF_NOT_EXISTS_titanic_AS_read_csv TITANIC_URL;
        CREATE_TABLE_titanic_with_id_AS_row_number;
        DROP_TABLE_titanic;
        ALTER_TABLE_titanic_with_id_RENAME_TO_titanic;
        SELECT_COUNT_FROM_titanic].
Proof. repeat split; vm_compute; reflexivity. Qed.

(** Ingestion of 7 passengers numbers them 1 to 7. *)
Lemma ingestion_of_7 :
  exists t,
    disk (ingested_world (passengers 7)) "titanic.duckdb"
    = Some {| titanic := Some t; titanic_with_id := None |}
    /\ map row_id t
       = [Some 1; Some 2; Some 3; Some 4; Some 5; Some 6; Some 7]
    /\ NoDup (map row_id t).
Proof.
  destruct (ingestion_assigns_unique_ids
              (fresh_world (passengers 7)) "titanic.duckdb" TITANIC_URL
              (passengers 7) eq_refl eq_refl false
              ltac:(repeat constructor))
    as (t & _ & Hdb & _ & Hids & Hdistinct & _).
  exists t. split; [exact Hdb|]. split; [exact Hids | exact Hdistinct].
Defined.

(** A passenger aged 35 passes the age rule, and so does one whose age
    is missing. *)
Lemma age_35_and_missing_age_pass :
  passes (Between "age" 0 70 PassOnNull) [("age", VInt 35); ("id", VInt 5)]
  = true
  /\ passes (Between "age" 0 70 PassOnNull) [("age", VNull); ("id", VInt 4)]
     = true.
Proof.
  destruct (between_pass_on_null "age" 0 70) as (Hnumber & Hnull & _).
  split.
  - apply (Hnumber [("age", VInt 35); ("id", VInt 5)] (VInt 35)
             (inject_Z 35) eq_refl eq_refl).
    split; unfold Qle; cbn; lia.
  - apply Hnull. reflexivity.
Defined.

(** A passenger who embarked at S passes the port rule, one whose port is
    missing fails it. *)
Lemma port_S_passes_and_missing_port_fails :
  passes (InSet "embarked" PORT_EMBARKED) [("embarked", VStr "S")] = true
  /\ passes (InSet "embarked" PORT_EMBARKED) [("embarked", VNull)] = false.
Proof.
  destruct (in_set_null_fails "embarked" PORT_EMBARKED)
    as (Hstring & _ & Hnull & _).
  split.
  - apply (Hstring [("embarked", VStr "S")] "S" eq_refl). cbn. tauto.
  - apply Hnull. reflexivity.
Defined.

(** Scenario B sundered by its rule: three rows pass, two fail. *)
Lemma sunder_scenario_B :
  let report := interrogate scenario_B [InSet "embarked" PORT_EMBARKED] in
  Permutation
    (fst (sunder scenario_B report) ++ snd (sunder scenario_B report))
    scenario_B
  /\ ids_of (fst (sunder scenario_B report)) = [1; 2; 3]
  /\ ids_of (snd (sunder scenario_B report)) = [4; 5].
Proof.
  cbv zeta.
  assert (Huniq : unique_ids scenario_B).
  { split.
    - vm_compute. repeat constructor; cbn; intuition discriminate.
    - repeat constructor; discriminate. }
  destruct (sunder_partitions scenario_B [InSet "embarked" PORT_EMBARKED]
              Huniq) as (_ & _ & Hperm & _).
  split; [exact Hperm|]. split; reflexivity.
Defined.

(** * Further properties of the notebook's code *)

(** ** Ingestion: a failed load, a second call, a forced call *)

Section IngestionEdges.

Context {G : RandomGen}.

Lemma con_sql_keeps_file (con p : string) (q : sql) (w : world) :
  disk w p <> None -> disk (snd (con_sql con q w)) p <> None.
Proof.
  intros Hfile. unfold con_sql. cbn [disk log].
  destruct (disk w con) as [d|]; [|exact Hfile].
  destruct (run_sql (fetch (log q w)) q d) as [[d' rel]|e];
    cbn [snd disk write_db log]; [|exact Hfile].
  now destruct (String.eqb p con).
Qed.

Lemma bind_keeps_file {A B : Type} (m : M A) (k : A -> M B)
  (p : string) (w : world) :
  disk (snd (m w)) p <> None ->
  (forall a w', disk w' p <> None -> disk (snd (k a w')) p <> None) ->
  disk (snd (bind m k w)) p <> None.
Proof.
  intros Hm Hk. unfold bind.
  destruct (m w) as [[a|e] w1]; cbn [snd] in *; [now apply Hk | exact Hm].
Qed.

(** However a call ends, the database file is there afterwards. *)
Lemma get_create_titanic_db_leaves_file (db_path url : string)
  (force_create : bool) (w : world) :
  disk (snd (get_create_titanic_db db_path url force_create w)) db_path
  <> None.
Proof.
  assert (Hconnect : disk (snd (duckdb_connect db_path w)) db_path <> None).
  { unfold duckdb_connect. destruct (disk w db_path) eqn:Hd; cbn.
    - now rewrite Hd.
    - now rewrite String.eqb_refl. }
  unfold get_create_titanic_db, bind at 1, path_exists.
  destruct (negb _ || force_create).
  - apply bind_keeps_file; [exact Hconnect|]. intros con w1 Hw1.
    repeat (apply bind_keeps_file;
            [now apply con_sql_keeps_file | intros _ ? ?]).
    assumption.
  - apply bind_keeps_file; [exact Hconnect|]. now intros con w1 Hw1.
Qed.

(** X2: whatever a call of [get_create_titanic_db] did, and however it
    ended, a following call without [force_create] sends no statement and
    changes nothing: it returns the connection to the database as it is. *)
Theorem second_call_changes_nothing (db_path url url' : string)
  (force_create : bool) (w : world) :
  let w1 := snd (get_create_titanic_db db_path url force_create w) in
  get_create_titanic_db db_path url' false w1 = (Return db_path, w1).
Proof.
  intros w1.
  pose proof (get_create_titanic_db_leaves_file db_path url force_create w)
    as Hfile.
  fold w1 in Hfile. destruct (disk w1 db_path) as [d|] eqn:Hd;
    [|contradiction].
  now apply (get_create_titanic_db_again db_path w1 d).
Qed.

(** The whole of a call whose load fails on a fresh path. *)
Lemma get_create_titanic_db_offline (w : world) (db_path url : string)
  (force_create : bool) :
  disk w db_path = None -> fetch w url = None ->
  get_create_titanic_db db_path url force_create w
  = (Raise IOException,
     log (CREATE_TABLE_IF_NOT_EXISTS_titanic_AS_read_csv url)
       (write_db db_path empty_database w)).
Proof.
  intros Hfresh Hoffline.
  unfold get_create_titanic_db, bind, path_exists, duckdb_connect, con_sql.
  rewrite Hfresh. cbn [negb orb disk write_db log fetch].
  repeat (rewrite ?Hfresh, ?String.eqb_refl, ?Hoffline;
          cbn [run_sql titanic titanic_with_id empty_database
                 disk write_db log fetch fst snd ret]).
  reflexivity.
Qed.

(** X1: on a path with no database yet, when the CSV cannot be fetched,
    [get_create_titanic_db] raises the load's exception after its first
    statement, and the database file that [duckdb.connect] created stays
    behind, empty: no table, no other statement sent, other files
    untouched. *)
Theorem failed_load_leaves_empty_database (w : world)
  (db_path url : string) (force_create : bool) :
  disk w db_path = None -> fetch w url = None ->
  let run := get_create_titanic_db db_path url force_create w in
  fst run = Raise IOException
  /\ disk (snd run) db_path = Some empty_database
  /\ executed (snd run)
     = executed w ++ [CREATE_TABLE_IF_NOT_EXISTS_titanic_AS_read_csv url]
  /\ (forall p, p <> db_path -> disk (snd run) p = disk w p).
Proof.
  intros Hfresh Hoffline. cbv zeta.
  rewrite get_create_titanic_db_offline by assumption.
  cbn [fst snd disk write_db log executed].
  rewrite String.eqb_refl. repeat split.
  intros p Hp. now destruct (String.eqb_spec p db_path).
Qed.

(** X3: after such a failed load the default call does not try again: it
    returns a connection to the empty database, and the split on that
    connection raises CatalogException at its first query, for every
    [n_sample] and seed, before anything is divided or drawn. *)
Theorem failed_load_is_not_retried (w : world) (db_path url : string)
  (force_create : bool) (n_sample seed : Z) :
  disk w db_path = None -> fetch w url = None ->
  let w1 := snd (get_create_titanic_db db_path url force_create w) in
  let again := get_create_titanic_db db_path url false w1 in
  let run := create_random_samples db_path n_sample seed (snd again) in
  fst again = Return db_path
  /\ snd again = w1
  /\ disk w1 db_path = Some empty_database
  /\ fst run = Raise CatalogException
  /\ executed (snd run) = executed w1 ++ [SELECT_COUNT_FROM_titanic].
Proof.
  intros Hfresh Hoffline w1 again run.
  assert (Hempty : disk w1 db_path = Some empty_database).
  { unfold w1. rewrite get_create_titanic_db_offline by assumption.
    cbn [snd disk write_db log]. now rewrite String.eqb_refl. }
  assert (Hagain : again = (Return db_path, w1))
    by exact (get_create_titanic_db_again db_path w1 _ url Hempty).
  unfold run. rewrite Hagain. cbn [fst snd].
  repeat (split; [reflexivity || assumption|]).
  unfold create_random_samples, bind, con_sql.
  cbn [disk log]. rewrite Hempty. split; reflexivity.
Qed.

(** X4: with [force_create] the call loads the CSV into a database file
    that is there but holds no table (as a failed load leaves it): the four
    statements run, and the table [titanic] holds the CSV's rows numbered
    1, 2, ..., R in its [id] column. *)
Theorem forced_call_fills_empty_database (w : world) (db_path url : string)
  (d : database) (rows : table) :
  disk w db_path = Some d ->
  titanic d = None -> titanic_with_id d = None ->
  fetch w url = Some rows ->
  Forall (fun r => get "id" r = None) rows ->
  let run := get_create_titanic_db db_path url true w in
  fst run = Return db_path
  /\ disk (snd run) db_path
     = Some {| titanic := Some (row_number 1 rows);
               titanic_with_id := None |}
  /\ map row_id (row_number 1 rows)
     = map (fun k => Some (Z.of_nat k)) (seq 1 (List.length rows))
  /\ executed (snd run)
     = executed w
       ++ [CREATE_TABLE_IF_NOT_EXISTS_titanic_AS_read_csv url;
           CREATE_TABLE_titanic_with_id_AS_row_number;
           DROP_TABLE_titanic;
           ALTER_TABLE_titanic_with_id_RENAME_TO_titanic].
Proof.
  intros Hd Hnone Hnone' Hserved Hnew. cbv zeta.
  unfold get_create_titanic_db, bind, path_exists, duckdb_connect, con_sql.
  rewrite Hd. cbn [negb orb disk write_db log fetch].
  repeat (rewrite ?Hd, ?Hnone, ?Hnone', ?String.eqb_refl, ?Hserved;
          cbn [run_sql titanic titanic_with_id
                 disk write_db log fetch fst snd ret executed]).
  split; [reflexivity|]. split; [reflexivity|]. split.
  - rewrite row_number_ids by exact Hnew.
    rewrite <- seq_shift, map_map. apply map_ext. intros j. f_equal. lia.
  - now rewrite <- !app_assoc.
Qed.

(** X5: with [force_create] on a database that already holds the table,
    the CSV is not loaded again: whatever the URL serves now, the table
    has as many rows as before and every row keeps every cell it had (it
    gains one more row-number column). *)
Theorem forced_call_does_not_reload (w : world) (db_path url : string)
  (t rows' : table) :
  disk w db_path = Some {| titanic := Some t; titanic_with_id := None |} ->
  fetch w url = Some rows' ->
  exists t',
    disk (snd (get_create_titanic_db db_path url true w)) db_path
    = Some {| titanic := Some t'; titanic_with_id := None |}
    /\ List.length t' = List.length t
    /\ Forall2 (fun r r' => forall column v,
                  get column r = Some v -> get column r' = Some v) t t'.
Proof.
  intros Hd _. exists (row_number 1 t).
  split; [now apply get_create_titanic_db_forced|].
  split; [apply row_number_length|].
  eapply Forall2_impl; [|apply row_number_keeps_rows].
  intros r r' (i & ->) column v. apply get_app_old.
Qed.

End IngestionEdges.

(** ** The split: sizes, labels, failures *)

Lemma map_fst_combine {A B : Type} (l1 : list A) (l2 : list B) :
  List.length l1 = List.length l2 -> map fst (combine l1 l2) = l1.
Proof.
  revert l2. induction l1 as [|a l1 IH]; intros [|b l2] Hlen;
    cbn in *; try congruence.
  f_equal. apply IH. lia.
Qed.

Lemma reset_index_labels (df : DataFrame) :
  map fst (reset_index df) = seq 0 (List.length df).
Proof.
  unfold reset_index. apply map_fst_combine.
  now rewrite length_seq, length_map.
Qed.

Lemma firstn_seq_min (a s n : nat) :
  firstn a (seq s n) = seq s (Nat.min a n).
Proof.
  revert s n. induction a as [|a IH]; intros s [|n]; cbn; try reflexivity.
  now rewrite IH.
Qed.

Lemma chunk_of_seq (c k n : nat) :
  chunk c k (seq 0 n) = seq (k * c) (Nat.min c (n - k * c)).
Proof. unfold chunk. now rewrite skipn_seq, firstn_seq_min. Qed.

Lemma chunk_map {A B : Type} (f : A -> B) (c k : nat) (l : list A) :
  map f (chunk c k l) = chunk c k (map f l).
Proof. unfold chunk. now rewrite skipn_map, firstn_map. Qed.

Lemma with_keys_missing (by_ : string) (x : nat * record) (df : DataFrame) :
  int_of by_ (snd x) = None -> with_keys by_ (x :: df) = None.
Proof. intros Hx. cbn [with_keys]. now rewrite Hx. Qed.

Section SplitEdges.

Context {G : RandomGen}.

Variables (w : world) (con : string) (d : database) (t : table).
Hypothesis Hcon : disk w con = Some d.
Hypothesis Htable : titanic d = Some t.

Lemma shuffled_rows_of_labels (seed : Z) :
  map fst (shuffled_rows_of t seed) = seq 0 (List.length t).
Proof.
  rewrite <- (shuffled_rows_of_length t seed).
  unfold shuffled_rows_of at 1. rewrite reset_index_labels.
  unfold shuffled_rows_of. now rewrite reset_index_length.
Qed.

(** X6: for n >= 1 and a valid seed, the sizes the split returns add up
    to the number of rows of the table, and so do the rows of the samples:
    no row is lost and none is added. *)
Theorem sample_sizes_add_up (n_sample seed : Z) :
  1 <= n_sample -> 0 <= seed < 2 ^ 32 ->
  exists samples sample_size,
    fst (create_random_samples con n_sample seed w)
    = Return (samples, sample_size)
    /\ list_sum sample_size = List.length t
    /\ List.length (List.concat samples) = List.length t.
Proof.
  intros Hn Hseed.
  pose proof (create_random_samples_chunks w con d t Hcon Htable
                n_sample seed Hn Hseed) as Hrun.
  cbv zeta in Hrun.
  set (c := Z.to_nat (ceil_div (Z.of_nat (List.length t)) n_sample)) in *.
  eexists _, _. split; [exact Hrun|].
  assert (Hjoin : List.length
                    (List.concat
                       (map (fun i => chunk c i (shuffled_rows_of t seed))
                          (seq 0 (Z.to_nat n_sample))))
                  = List.length t).
  { rewrite concat_chunks; [apply shuffled_rows_of_length|].
    rewrite shuffled_rows_of_length.
    apply (rows_per_sample_covers t n_sample Hn). }
  split; [|exact Hjoin].
  rewrite <- Hjoin, length_concat, map_map. reflexivity.
Qed.

(** X7: the samples keep the index labels of the shuffled frame: for
    n >= 1 and a valid seed, with c = ceil(R / n), sample k carries the
    consecutive labels k*c, k*c + 1, ..., so only the first sample starts
    at label 0, and the labels of all samples together are 0, ..., R-1. *)
Theorem samples_keep_shuffled_labels (n_sample seed : Z) :
  1 <= n_sample -> 0 <= seed < 2 ^ 32 ->
  let R := List.length t in
  let c := Z.to_nat (ceil_div (Z.of_nat R) n_sample) in
  exists samples sample_size,
    fst (create_random_samples con n_sample seed w)
    = Return (samples, sample_size)
    /\ (forall k, (k < Z.to_nat n_sample)%nat ->
          map fst (nth k samples [])
          = seq (k * c) (List.length (nth k samples [])))
    /\ map fst (List.concat samples) = seq 0 R.
Proof.
  intros Hn Hseed R c.
  pose proof (create_random_samples_chunks w con d t Hcon Htable
                n_sample seed Hn Hseed) as Hrun.
  cbv zeta in Hrun. fold R c in Hrun.
  eexists _, _. split; [exact Hrun|]. split.
  - intros k Hk.
    rewrite nth_indep with (d' := chunk c 0 (shuffled_rows_of t seed))
      by (rewrite length_map, length_seq; exact Hk).
    rewrite (map_nth (fun i => chunk c i (shuffled_rows_of t seed))
               (seq 0 (Z.to_nat n_sample)) 0%nat k).
    rewrite seq_nth by exact Hk. cbn [Nat.add].
    rewrite chunk_length, chunk_map, shuffled_rows_of_labels.
    rewrite shuffled_rows_of_length. apply chunk_of_seq.
  - rewrite concat_chunks; [apply shuffled_rows_of_labels|].
    rewrite shuffled_rows_of_length.
    apply (rows_per_sample_covers t n_sample Hn).
Qed.

(** X8: on a database that holds the table, the split can fail in two
    ways only: with ZeroDivisionError exactly when [n_sample] is 0
    (whatever the seed), and otherwise with ValueError exactly when the
    seed is outside 0 .. 2^32 - 1; in every other case it returns. *)
Theorem split_fails_in_two_ways_only (n_sample seed : Z) :
  let run := create_random_samples con n_sample seed w in
  (fst run = Raise ZeroDivisionError <-> n_sample = 0)
  /\ (fst run = Raise ValueError
      <-> n_sample <> 0 /\ ~ (0 <= seed < 2 ^ 32))
  /\ ((exists result, fst run = Return result)
      <-> n_sample <> 0 /\ 0 <= seed < 2 ^ 32)
  /\ (forall e, fst run = Raise e -> e = ZeroDivisionError \/ e = ValueError).
Proof.
  cbv zeta.
  rewrite (create_random_samples_outcome w con d t Hcon Htable).
  assert (Hvalid : (0 <=? seed) && (seed <? 2 ^ 32) = true
                   <-> 0 <= seed < 2 ^ 32)
    by (rewrite andb_true_iff, Z.leb_le, Z.ltb_lt; reflexivity).
  destruct (Z.eqb_spec n_sample 0) as [Hzero|Hn];
    [|destruct ((0 <=? seed) && (seed <? 2 ^ 32)) eqn:Hseed].
  - split; [tauto|]. split; [split; [discriminate | tauto]|].
    split; [split; [intros [result Hr]; discriminate | tauto]|].
    intros e He. injection He as <-. now left.
  - pose proof (proj1 Hvalid eq_refl) as Hok.
    split; [split; [discriminate | contradiction]|].
    split; [split; [discriminate | tauto]|].
    split; [split; [tauto | intros _; eexists; reflexivity]|].
    discriminate.
  - assert (Hbad : ~ (0 <= seed < 2 ^ 32))
      by (intros Hok; apply Hvalid in Hok; discriminate).
    split; [split; [discriminate | contradiction]|].
    split; [tauto|].
    split; [split; [intros [result Hr]; discriminate | tauto]|].
    intros e He. injection He as <-. now right.
Qed.

(** X9: after a split with a negative [n_sample] (and a valid seed) there
    is no sample to concatenate: the cross-check cell raises ValueError
    from [pd.concat], after it has fetched the original table again. *)
Theorem cross_check_fails_on_no_samples (n_sample seed : Z) :
  n_sample < 0 -> 0 <= seed < 2 ^ 32 ->
  let run := create_random_samples con n_sample seed w in
  let samples := samples_returned (fst run) in
  samples = []
  /\ fst (concat_samples samples (snd run)) = Raise ValueError
  /\ fst (identical con samples (snd run)) = Raise ValueError
  /\ executed (snd (identical con samples (snd run)))
     = executed (snd run) ++ [SELECT_ALL_FROM_titanic].
Proof.
  intros Hn Hseed run samples.
  assert (Hnone : samples = []).
  { unfold samples, run.
    rewrite (create_random_samples_returns w con d t Hcon Htable) by lia.
    unfold range. now destruct n_sample as [|p|p]; [lia | lia |]. }
  assert (Hdisk : disk (snd run) con = Some d).
  { destruct (frame_create_random_samples con n_sample seed w) as (Hsame & _).
    unfold run. now rewrite Hsame. }
  rewrite Hnone. split; [reflexivity|]. split; [reflexivity|].
  unfold identical, bind, con_sql. cbn [disk log].
  rewrite Hdisk. cbn [run_sql]. rewrite Htable. split; reflexivity.
Qed.

(** X10: when the table has rows but no [id] column (a database made
    elsewhere), the split works as ever, and the cross-check cell raises
    KeyError when it sorts by id. *)
Theorem cross_check_needs_id_column (n_sample seed : Z) :
  1 <= n_sample -> 0 <= seed < 2 ^ 32 ->
  t <> [] -> Forall (fun r => get "id" r = None) t ->
  exists samples sample_size,
    fst (create_random_samples con n_sample seed w)
    = Return (samples, sample_size)
    /\ Permutation (map snd (List.concat samples)) t
    /\ let w' := snd (create_random_samples con n_sample seed w) in
       fst (concat_samples samples w') = Raise KeyError
       /\ fst (identical con samples w') = Raise KeyError.
Proof.
  intros Hn Hseed Hrows Hnoid.
  pose proof (create_random_samples_chunks w con d t Hcon Htable
                n_sample seed Hn Hseed) as Hrun.
  cbv zeta in Hrun.
  set (c := Z.to_nat (ceil_div (Z.of_nat (List.length t)) n_sample)) in *.
  set (samples := map (fun i => chunk c i (shuffled_rows_of t seed))
                    (seq 0 (Z.to_nat n_sample))) in *.
  assert (Hjoin : List.concat samples = shuffled_rows_of t seed).
  { apply concat_chunks. rewrite shuffled_rows_of_length.
    apply (rows_per_sample_covers t n_sample Hn). }
  assert (Hperm : Permutation (map snd (shuffled_rows_of t seed)) t)
    by apply shuffled_rows_of_perm.
  assert (Hkeys : with_keys "id" (shuffled_rows_of t seed) = None).
  { destruct (shuffled_rows_of t seed) as [|x df] eqn:Hshuffled.
    - apply Permutation_nil in Hperm. congruence.
    - apply with_keys_missing. unfold int_of.
      rewrite Forall_forall in Hnoid. rewrite Hnoid; [reflexivity|].
      eapply Permutation_in; [exact Hperm | now left]. }
  assert (Hconcat : forall w0,
             fst (concat_samples samples w0) = Raise KeyError).
  { intros w0. unfold concat_samples, bind.
    destruct samples as [|df samples'] eqn:Hsamples.
    - unfold samples in Hsamples.
      destruct (Z.to_nat n_sample) eqn:E; [lia | discriminate].
    - cbn [pd_concat ret]. rewrite Hjoin. unfold sort_values.
      now rewrite Hkeys. }
  eexists samples, _. split; [exact Hrun|].
  split; [now rewrite Hjoin|]. intros w'. split; [apply Hconcat|].
  unfold identical, bind, con_sql. cbn [disk log].
  destruct (frame_create_random_samples con n_sample seed w) as (Hsame & _).
  fold w' in Hsame. rewrite Hsame, Hcon. cbn [run_sql]. rewrite Htable.
  specialize (Hconcat (write_db con d (log SELECT_ALL_FROM_titanic w'))).
  destruct (concat_samples samples _) as [[df|e] w2]; cbn in *;
    congruence.
Qed.

End SplitEdges.

(** ** When the cross-check succeeds *)

Lemma all2_Forall2 {A : Type} (f : A -> A -> bool) (l1 l2 : list A) :
  all2 f l1 l2 = true -> Forall2 (fun x y => f x y = true) l1 l2.
Proof.
  revert l2. induction l1 as [|x l1 IH]; intros [|y l2] H; cbn in H;
    try discriminate; constructor.
  - now apply andb_true_iff in H.
  - apply IH. now apply andb_true_iff in H.
Qed.

(** Rows that [equals] finds the same read the same in an integer
    column. *)
Lemma same_rows_same_int (column : string) (r1 r2 : record) :
  all2 (fun c d => String.eqb (fst c) (fst d) && same_cell (snd c) (snd d))
    r1 r2 = true ->
  int_of column r1 = int_of column r2.
Proof.
  revert r2. induction r1 as [|[c1 v1] r1 IH]; intros [|[c2 v2] r2] H;
    cbn in H; try discriminate; [reflexivity|].
  apply andb_true_iff in H. destruct H as [Hhead Hrest].
  apply andb_true_iff in Hhead. destruct Hhead as [Hname Hcell].
  apply String.eqb_eq in Hname. subst c2.
  specialize (IH _ Hrest). unfold int_of in *. cbn [get].
  destruct (String.eqb c1 column); [|exact IH].
  destruct v1, v2; cbn in Hcell; try discriminate; try reflexivity.
  apply Z.eqb_eq in Hcell. now subst.
Qed.

Lemma DataFrame_equals_ids (df other : DataFrame) :
  DataFrame_equals df other = true ->
  map row_id (map snd df) = map row_id (map snd other).
Proof.
  intros H. apply all2_Forall2 in H.
  induction H as [|x y df other Hxy _ IH]; [reflexivity|].
  cbn [map]. f_equal; [|exact IH].
  apply andb_true_iff in Hxy. now apply same_rows_same_int.
Qed.

Lemma sorted_map_le {A : Type} (f : A -> Z) (l : list A) :
  StronglySorted (fun a b => f a <= f b) l ->
  StronglySorted Z.le (map f l).
Proof.
  induction 1 as [|x l Hs IH Hall]; cbn; constructor; [exact IH|].
  rewrite Forall_map. exact Hall.
Qed.

Lemma sorted_nodup_strict (l : list Z) :
  StronglySorted Z.le l -> NoDup l -> StronglySorted Z.lt l.
Proof.
  induction 1 as [|x l Hs IH Hall]; intros Hnodup; constructor.
  - apply IH. now inversion Hnodup.
  - inversion Hnodup as [|? ? Hnew _]; subst.
    rewrite Forall_forall in *. intros y Hy. specialize (Hall _ Hy).
    assert (x <> y) by (intros ->; contradiction). lia.
Qed.

Lemma unique_ids_have (t : table) :
  unique_ids t -> Forall (fun r => row_id r = Some (id_key r)) t.
Proof.
  intros [_ Hall]. eapply Forall_impl; [|exact Hall].
  intros r Hr. cbn beta in Hr. unfold id_key.
  destruct (row_id r); [reflexivity | contradiction].
Qed.

Lemma id_key_of_row_id (t1 t2 : table) :
  map row_id t1 = map row_id t2 -> map id_key t1 = map id_key t2.
Proof.
  intros H.
  change id_key
    with (fun r => match row_id r with Some i => i | None => 0 end).
  rewrite <- !(map_map row_id
                 (fun o => match o with Some i => i | None => 0 end)).
  now rewrite H.
Qed.

Section CrossCheck.

Context {G : RandomGen}.

Variables (w : world) (con : string) (d : database) (t : table).
Hypothesis Hcon : disk w con = Some d.
Hypothesis Htable : titanic d = Some t.

(** X11: on a table whose rows all have an integer identifier, no two the
    same, the cross-check cell run after the split (n >= 1, valid seed)
    gives a verdict, and the verdict is "identical" exactly when the table
    is stored in increasing identifier order. *)
Theorem cross_check_succeeds_iff_id_order (n_sample seed : Z) :
  1 <= n_sample -> 0 <= seed < 2 ^ 32 -> unique_ids t ->
  exists samples sample_size,
    fst (create_random_samples con n_sample seed w)
    = Return (samples, sample_size)
    /\ let w' := snd (create_random_samples con n_sample seed w) in
       (exists verdict, fst (identical con samples w') = Return verdict)
       /\ (fst (identical con samples w') = Return true
           <-> increasing_ids t).
Proof.
  intros Hn Hseed Huniq.
  pose proof (create_random_samples_chunks w con d t Hcon Htable
                n_sample seed Hn Hseed) as Hrun.
  cbv zeta in Hrun.
  set (c := Z.to_nat (ceil_div (Z.of_nat (List.length t)) n_sample)) in *.
  set (samples := map (fun i => chunk c i (shuffled_rows_of t seed))
                    (seq 0 (Z.to_nat n_sample))) in *.
  assert (Hjoin : List.concat samples = shuffled_rows_of t seed).
  { apply concat_chunks. rewrite shuffled_rows_of_length.
    apply (rows_per_sample_covers t n_sample Hn). }
  assert (Hperm : Permutation (map snd (shuffled_rows_of t seed)) t)
    by apply shuffled_rows_of_perm.
  assert (Hsome : samples <> []).
  { unfold samples. destruct (Z.to_nat n_sample) eqn:E; [lia|discriminate]. }
  set (keyed := map (fun x => (id_key (snd x), x)) (shuffled_rows_of t seed)).
  set (sorted := map snd (sort_by_key keyed)).
  assert (Hkeys : with_keys "id" (shuffled_rows_of t seed) = Some keyed).
  { apply with_keys_id. rewrite Hperm. now apply unique_ids_have. }
  assert (Hsorted : StronglySorted Z.le (map id_key (map snd sorted))).
  { apply sorted_map_le. unfold sorted. rewrite map_map.
    apply keyed_rows_sorted; [|apply sort_by_key_sorted].
    rewrite (sort_by_key_perm keyed). unfold keyed.
    rewrite Forall_map. now apply Forall_forall. }
  eexists samples, _. split; [exact Hrun|]. intros w'.
  assert (Hidentical :
            fst (identical con samples w')
            = Return (DataFrame_equals (fetchdf t) (reset_index sorted))).
  { unfold identical, bind, con_sql. cbn [disk log].
    destruct (frame_create_random_samples con n_sample seed w)
      as (Hsame & _).
    fold w' in Hsame. rewrite Hsame, Hcon. cbn [run_sql]. rewrite Htable.
    unfold concat_samples, bind.
    destruct samples as [|df samples'] eqn:Hsamples; [contradiction|].
    cbn [pd_concat ret]. rewrite Hjoin. unfold sort_values.
    rewrite Hkeys. reflexivity. }
  rewrite Hidentical. split; [eexists; reflexivity|]. split.
  - intros [= Hequal]. apply DataFrame_equals_ids in Hequal.
    rewrite fetchdf_rows, reset_index_rows in Hequal.
    apply id_key_of_row_id in Hequal. rewrite <- Hequal in Hsorted.
    assert (Hmap : map row_id t = map Some (map id_key t)).
    { rewrite map_map. apply map_ext_in. intros r Hr.
      pose proof (unique_ids_have t Huniq) as Hhave.
      rewrite Forall_forall in Hhave. now apply Hhave. }
    exists (map id_key t). split; [exact Hmap|].
    apply sorted_nodup_strict; [exact Hsorted|].
    destruct Huniq as [Hnodup _].
    rewrite Hmap in Hnodup. now apply NoDup_map_inv in Hnodup.
  - intros Hinc. f_equal.
    assert (Hback : reset_index sorted = fetchdf t).
    { pose proof (concat_samples_restores t samples w' Hinc Hsome) as Hok.
      rewrite Hjoin in Hok. specialize (Hok Hperm).
      unfold concat_samples, bind in Hok.
      destruct samples as [|df samples'] eqn:Hsamples; [contradiction|].
      cbn [pd_concat ret] in Hok. rewrite Hjoin in Hok.
      unfold sort_values in Hok. rewrite Hkeys in Hok.
      unfold ret in Hok. now injection Hok. }
    rewrite Hback. apply DataFrame_equals_refl.
Qed.

End CrossCheck.

(** ** The notebook's rule chain as a whole *)

Lemma member_null (allowed_values : list scalar) :
  member VNull allowed_values = false.
Proof.
  unfold member. induction allowed_values as [|a l IH]; [reflexivity|].
  cbn [existsb number]. exact IH.
Qed.

Lemma not_null_passes (column : string) (r : record) :
  passes (NotNull column) r = true
  <-> exists v, get column r = Some v /\ v <> VNull.
Proof.
  cbn [passes]. destruct (get column r) as [[| | |]|]; split;
    try discriminate; try (intros (v & [= <-] & Hv); congruence);
    try (intros (v & Hv & _); discriminate);
    intros _; eexists; (split; [reflexivity | discriminate]).
Qed.

Lemma in_set_passes (column : string) (allowed_values : list scalar)
  (r : record) :
  passes (InSet column allowed_values) r = true
  <-> exists v, get column r = Some v /\ member v allowed_values = true.
Proof.
  cbn [passes]. destruct (get column r) as [v|].
  - destruct v; (split;
      [intros H; eexists; (split; [reflexivity|]); try exact H; discriminate
      | intros (v & [= <-] & Hv); try exact Hv]).
    now rewrite member_null in Hv.
  - split; [discriminate | intros (v & Hv & _); discriminate].
Qed.

(** With the not-null step on the same column, a Between step passes the
    rows that hold a number in range, whatever its null policy. *)
Lemma not_null_and_between (column : string) (lo hi : Q)
  (policy : null_policy) (r : record) :
  passes (NotNull column) r = true
  /\ passes (Between column lo hi policy) r = true
  <-> exists v q, get column r = Some v /\ number v = Some q
                  /\ (lo <= q)%Q /\ (q <= hi)%Q.
Proof.
  cbn [passes]. destruct (get column r) as [v|].
  - destruct v as [|z|q|s]; cbn [number].
    + split; [intros [? _]; discriminate|].
      intros (v & q & [= <-] & Hq & _). discriminate.
    + rewrite Qle_bool_both. split.
      * intros [_ H]. now exists (VInt z), (inject_Z z).
      * intros (v & q & [= <-] & [= <-] & H). now split.
    + rewrite Qle_bool_both. split.
      * intros [_ H]. now exists (VFloat q), q.
      * intros (v & q' & [= <-] & [= <-] & H). now split.
    + split; [intros [_ ?]; discriminate|].
      intros (v & q & [= <-] & Hq & _). discriminate.
  - split; [intros [? _]; discriminate|].
    intros (v & q & Hv & _). discriminate.
Qed.

Lemma member_of_strings (v : scalar) (names : list string) :
  member v (map VStr names) = true <-> exists s, v = VStr s /\ In s names.
Proof.
  destruct v as [|z|q|s].
  - rewrite member_null. split; [discriminate | now intros (s & ? & _)].
  - split; [|now intros (s & ? & _)].
    intros H. apply (member_number (VInt z) _ _ eq_refl) in H.
    destruct H as (a & y & Ha & Hy & _).
    apply in_map_iff in Ha. destruct Ha as (s & <- & _). discriminate.
  - split; [|now intros (s & ? & _)].
    intros H. apply (member_number (VFloat q) _ _ eq_refl) in H.
    destruct H as (a & y & Ha & Hy & _).
    apply in_map_iff in Ha. destruct Ha as (s' & <- & _). discriminate.
  - rewrite member_string. rewrite in_map_iff. split.
    + intros (s' & [= <-] & Hin). now exists s'.
    + intros (s' & [= <-] & Hin). now exists s.
Qed.

Lemma member_of_integers (v : scalar) (numbers : list Z) :
  member v (map VInt numbers) = true
  <-> exists q z, number v = Some q /\ In z numbers /\ (q == inject_Z z)%Q.
Proof.
  destruct (number v) as [q|] eqn:Hq.
  - rewrite (member_number v q _ Hq). split.
    + intros (a & y & Ha & Hy & Heq).
      apply in_map_iff in Ha. destruct Ha as (z & <- & Hz).
      injection Hy as <-. now exists q, z.
    + intros (q' & z & [= <-] & Hz & Heq).
      exists (VInt z), (inject_Z z). repeat split; try assumption.
      now apply in_map.
  - split; [|intros (q & z & ? & _); discriminate].
    destruct v as [|z|q|s]; try discriminate.
    + now rewrite member_null.
    + intros H. unfold member in H. apply existsb_exists in H.
      destruct H as (a & Ha & Heq).
      apply in_map_iff in Ha. destruct Ha as (z & <- & _). discriminate.
Qed.

(** X12: a row passes all thirteen steps of the notebook's chain exactly
    when survived is 0 or 1, pclass is 1, 2 or 3, sex is male or female,
    age is a number from 0 to 70, ticket is not null, fare is a number from
    0 to 500 and embarked is C, Q or S.  So [na_pass=True] on the age range
    rescues no row: a row without an age never passes the chain. *)
Theorem chain_passes_exactly (r : record) :
  (passes_all titanic_rules r = true
   <-> (exists q z, option_map number (get "survived" r) = Some (Some q)
                    /\ In z [0; 1] /\ (q == inject_Z z)%Q)
       /\ (exists q z, option_map number (get "pclass" r) = Some (Some q)
                       /\ In z [1; 2; 3] /\ (q == inject_Z z)%Q)
       /\ (exists s, get "sex" r = Some (VStr s) /\ In s ["male"; "female"])
       /\ (exists q, option_map number (get "age" r) = Some (Some q)
                     /\ (0 <= q)%Q /\ (q <= 70)%Q)
       /\ (exists v, get "ticket" r = Some v /\ v <> VNull)
       /\ (exists q, option_map number (get "fare" r) = Some (Some q)
                     /\ (0 <= q)%Q /\ (q <= 500)%Q)
       /\ (exists s, get "embarked" r = Some (VStr s)
                     /\ In s ["C"; "Q"; "S"]))
  /\ (get "age" r = Some VNull -> passes_all titanic_rules r = false).
Proof.
  assert (Hnumber : forall column (P : Q -> Prop),
             (exists v q, get column r = Some v /\ number v = Some q /\ P q)
             <-> exists q, option_map number (get column r) = Some (Some q)
                           /\ P q).
  { intros column P. split.
    - intros (v & q & Hv & Hq & HP). exists q. now rewrite Hv; cbn; rewrite Hq.
    - intros (q & Hq & HP). destruct (get column r) as [v|]; [|discriminate].
      injection Hq as Hq. now exists v, q. }
  assert (Hchain :
            passes_all titanic_rules r = true
            <-> (passes (NotNull "survived") r = true
                 /\ passes (InSet "survived" SURVIVED) r = true)
                /\ (passes (NotNull "pclass") r = true
                    /\ passes (InSet "pclass" PASSENGER_CLASS) r = true)
                /\ (passes (NotNull "sex") r = true
                    /\ passes (InSet "sex" SEX) r = true)
                /\ (passes (NotNull "age") r = true
                    /\ passes (Between "age" 0 70 PassOnNull) r = true)
                /\ passes (NotNull "ticket") r = true
                /\ (passes (NotNull "fare") r = true
                    /\ passes (Between "fare" 0 500 FailOnNull) r = true)
                /\ (passes (NotNull "embarked") r = true
                    /\ passes (InSet "embarked" PORT_EMBARKED) r = true)).
  { unfold passes_all, titanic_rules, col_vals_not_null, col_vals_between,
      col_vals_in_set, MIN_AGE, MAX_AGE, MIN_FARE, MAX_FARE.
    cbn [forallb]. rewrite !andb_true_iff.
    change (inject_Z 0) with 0%Q. change (inject_Z 70) with 70%Q.
    change (inject_Z 500) with 500%Q. tauto. }
  assert (Hset : forall column allowed_values,
             passes (NotNull column) r = true
             /\ passes (InSet column allowed_values) r = true
             <-> exists v, get column r = Some v
                           /\ member v allowed_values = true).
  { intros column allowed_values. rewrite in_set_passes, not_null_passes.
    split; [tauto|]. intros (v & Hv & Hin). split; [|now exists v].
    exists v. split; [exact Hv|]. intros ->.
    now rewrite member_null in Hin. }
  split.
  - rewrite Hchain, !Hset, !not_null_and_between, not_null_passes.
    change SURVIVED with (map VInt [0; 1]).
    change PASSENGER_CLASS with (map VInt [1; 2; 3]).
    change SEX with (map VStr ["male"; "female"]).
    change PORT_EMBARKED with (map VStr ["C"; "Q"; "S"]).
    rewrite <- !(Hnumber _ (fun q => (0 <= q)%Q /\ (q <= _)%Q)).
    assert (Hints : forall column numbers,
               (exists v, get column r = Some v
                          /\ member v (map VInt numbers) = true)
               <-> exists q z, option_map number (get column r)
                               = Some (Some q)
                               /\ In z numbers /\ (q == inject_Z z)%Q).
    { intros column numbers. split.
      - intros (v & Hv & Hin). apply member_of_integers in Hin.
        destruct Hin as (q & z & Hq & Hz). exists q, z.
        rewrite Hv. cbn. now rewrite Hq.
      - intros (q & z & Hq & Hz).
        destruct (get column r) as [v|]; [|discriminate].
        injection Hq as Hq. exists v. split; [reflexivity|].
        apply member_of_integers. now exists q, z. }
    assert (Hstrings : forall column names,
               (exists v, get column r = Some v
                          /\ member v (map VStr names) = true)
               <-> exists s, get column r = Some (VStr s) /\ In s names).
    { intros column names. split.
      - intros (v & Hv & Hin). apply member_of_strings in Hin.
        destruct Hin as (s & -> & Hs). now exists s.
      - intros (s & Hv & Hs). exists (VStr s). split; [exact Hv|].
        apply member_of_strings. now exists s. }
    rewrite !Hints, !Hstrings. tauto.
  - intros Hage. apply not_true_is_false. intros Hpass.
    apply Hchain in Hpass.
    destruct Hpass as (_ & _ & _ & [Hnn _] & _).
    cbn [passes] in Hnn. rewrite Hage in Hnn. discriminate.
Qed.

(** ** Validating the samples one by one *)

Lemma filter_as_flat_map {A : Type} (f : A -> bool) (l : list A) :
  filter f l = flat_map (fun x => if f x then [x] else []) l.
Proof.
  induction l as [|x l IH]; [reflexivity|].
  cbn. rewrite IH. now destruct (f x).
Qed.

Lemma filter_perm {A : Type} (f : A -> bool) (l l' : list A) :
  Permutation l l' -> Permutation (filter f l) (filter f l').
Proof.
  intros H. rewrite !filter_as_flat_map. now apply Permutation_flat_map.
Qed.

Lemma filter_concat {A : Type} (f : A -> bool) (ls : list (list A)) :
  filter f (List.concat ls) = List.concat (map (filter f) ls).
Proof.
  induction ls as [|l ls IH]; [reflexivity|].
  cbn. now rewrite filter_app, IH.
Qed.

Lemma ids_of_concat_tables (ts : list table) :
  ids_of (List.concat ts) = List.concat (map ids_of ts).
Proof.
  induction ts as [|t ts IH]; [reflexivity|].
  cbn. now rewrite ids_of_app, IH.
Qed.

(** A rule's result on several tables joined end to end is the results on
    the tables, joined. *)
Lemma evaluate_concat (rule : Rule) (ts : list table) :
  failing_row_ids (evaluate (List.concat ts) rule)
  = List.concat (map (fun t => failing_row_ids (evaluate t rule)) ts)
  /\ rows_passed (evaluate (List.concat ts) rule)
     = list_sum (map (fun t => rows_passed (evaluate t rule)) ts)
  /\ rows_evaluated (evaluate (List.concat ts) rule)
     = list_sum (map (fun t => rows_evaluated (evaluate t rule)) ts).
Proof.
  cbn [failing_row_ids rows_passed rows_evaluated evaluate].
  rewrite !filter_concat, ids_of_concat_tables, !length_concat, !map_map.
  repeat split.
Qed.

Lemma evaluate_perm (rule : Rule) (t t' : table) :
  Permutation t t' ->
  Permutation (failing_row_ids (evaluate t rule))
    (failing_row_ids (evaluate t' rule))
  /\ rows_passed (evaluate t rule) = rows_passed (evaluate t' rule)
  /\ rows_evaluated (evaluate t rule) = rows_evaluated (evaluate t' rule).
Proof.
  intros H. cbn [failing_row_ids rows_passed rows_evaluated evaluate].
  split; [apply ids_of_perm, filter_perm, H|].
  split; apply Permutation_length; [apply filter_perm|]; exact H.
Qed.

Lemma map_snd_concat (frames : list DataFrame) :
  map snd (List.concat frames) = List.concat (map (map snd) frames).
Proof. apply concat_map. Qed.


Section ValidateSamples.

Context {G : RandomGen}.

Lemma has_column_rows (df : DataFrame) (column : string) :
  has_column df column = true
  <-> forall x, In x df -> get column (snd x) <> None.
Proof.
  unfold has_column. rewrite forallb_forall.
  split; intros H x Hx; specialize (H x Hx);
    destruct (get column (snd x)); congruence.
Qed.

(** A frame with rows and with the columns of every step gets its
    report. *)
Lemma interrogation_returns (df : DataFrame) (rule_set : list Rule) :
  df <> [] ->
  (forall rule, In rule rule_set -> has_column df (column_of rule) = true) ->
  interrogation df rule_set = Return (interrogate (map snd df) rule_set).
Proof.
  intros Hrows Hcols. destruct df as [|x df]; [contradiction|].
  unfold interrogation.
  replace (forallb (fun rule => has_column (x :: df) (column_of rule))
             rule_set) with true; [reflexivity|].
  symmetry. apply forallb_forall. exact Hcols.
Qed.

Lemma validate_titanic_data_sample_at (data : nat) (k : kernel)
  (df : DataFrame) :
  nth_error (frames k) data = Some df ->
  validate_titanic_data_sample data k = (interrogation df titanic_rules, k).
Proof.
  intros Hdf. unfold validate_titanic_data_sample.
  rewrite (surjective_pairing (pb_interrogate data titanic_rules k)).
  now rewrite pb_interrogate_leaves, (pb_interrogate_at _ _ _ df Hdf).
Qed.

(** The loop over frames that all get their report: nothing is changed,
    and every sample is shown in turn with its number, its size and its
    own validation. *)
Lemma validate_samples_from_run (i : nat) (dfs pre : list DataFrame)
  (k : kernel) :
  frames k = pre ++ dfs ->
  Forall (fun df => interrogation df titanic_rules
                    = Return (interrogate (map snd df) titanic_rules)) dfs ->
  validate_samples_from i (seq (List.length pre) (List.length dfs)) k
  = (Return tt,
     {| outside := outside k;
        frames := frames k;
        displayed := displayed k ++ shown_from (i + 1) dfs |}).
Proof.
  revert i pre k. induction dfs as [|df dfs IH]; intros i pre k Hframes Hok.
  - cbn. rewrite app_nil_r. now destruct k.
  - inversion Hok as [|? ? Hdf Hrest]; subst.
    assert (Hat : nth_error (frames k) (List.length pre) = Some df).
    { rewrite Hframes, nth_error_app2 by lia. now rewrite Nat.sub_diag. }
    cbn [List.length seq validate_samples_from].
    unfold k_bind at 1.
    rewrite (validate_titanic_data_sample_at _ _ df Hat), Hdf.
    unfold k_bind at 1, frame_at. rewrite Hat.
    unfold k_bind at 1, display at 1. unfold k_bind at 1, display at 1.
    cbn [outside frames displayed].
    replace (S (List.length pre)) with (List.length (pre ++ [df]))
      by (rewrite length_app; cbn; lia).
    rewrite (IH (S i) (pre ++ [df]));
      [|cbn [frames]; now rewrite Hframes, <- app_assoc | exact Hrest].
    cbn [outside frames displayed]. rewrite <- !app_assoc. reflexivity.
Qed.


Variables (k : kernel) (con : string) (d : database) (t : table).
Hypothesis Hcon : disk (outside k) con = Some d.
Hypothesis Htable : titanic d = Some t.

(** A sample with rows, of a table with the columns of every step, gets
    its report. *)
Lemma chunk_report (c i : nat) (seed : Z) :
  forallb (fun rule => has_column (fetchdf t) (column_of rule)) titanic_rules
  = true ->
  chunk c i (shuffled_rows_of t seed) <> [] ->
  interrogation (chunk c i (shuffled_rows_of t seed)) titanic_rules
  = Return (interrogate (map snd (chunk c i (shuffled_rows_of t seed)))
              titanic_rules).
Proof.
  intros Hcols Hrows. apply interrogation_returns; [exact Hrows|].
  intros rule Hrule. apply has_column_rows. intros x Hx.
  rewrite forallb_forall in Hcols. specialize (Hcols rule Hrule).
  rewrite has_column_rows in Hcols.
  apply in_firstn_skipn in Hx.
  assert (Hin : In (snd x) (map snd (fetchdf t))).
  { rewrite fetchdf_rows.
    apply (Permutation_in _ (shuffled_rows_of_perm t seed)).
    now apply in_map. }
  apply in_map_iff in Hin. destruct Hin as (y & Hy & Hin).
  rewrite <- Hy. now apply Hcols.
Qed.

(** So do all the samples of a split that leaves no sample empty. *)
Lemma chunks_get_their_report (n_sample seed : Z) :
  1 <= n_sample ->
  forallb (fun rule => has_column (fetchdf t) (column_of rule)) titanic_rules
  = true ->
  (n_sample - 1) * ceil_div (Z.of_nat (List.length t)) n_sample
  < Z.of_nat (List.length t) ->
  Forall (fun df => interrogation df titanic_rules
                    = Return (interrogate (map snd df) titanic_rules))
    (map (fun i =>
            chunk (Z.to_nat (ceil_div (Z.of_nat (List.length t)) n_sample))
              i (shuffled_rows_of t seed))
       (seq 0 (Z.to_nat n_sample))).
Proof.
  intros Hn Hcols Hfull.
  pose proof (ceil_div_nonneg (Z.of_nat (List.length t)) n_sample) as Hc.
  pose proof (ceil_div_covers (Z.of_nat (List.length t)) n_sample) as Hcov.
  apply Forall_forall. intros df Hdf.
  apply in_map_iff in Hdf. destruct Hdf as (i & <- & Hi).
  apply in_seq in Hi.
  apply chunk_report; [exact Hcols|].
  intros Hnil. apply (f_equal (@List.length _)) in Hnil.
  rewrite chunk_length, shuffled_rows_of_length in Hnil.
  cbn [List.length] in Hnil. nia.
Qed.

(** X13: validating the samples one by one finds what validating the
    whole table finds.  For a table with the columns of every step, after
    a split with n >= 1 and a valid seed that leaves no sample empty
    ((n - 1) * ceil(R / n) < R), the last cell returns and changes no
    frame; it shows the samples numbered 1 to n, each with its size and
    its own validation, and for every step of the chain the failing rows
    of the samples, taken together, are the failing rows of the whole
    table (in another order), and the counts of evaluated and of passed
    rows add up to the table's. *)
Theorem validating_samples_covers_the_table (n_sample seed : Z) :
  1 <= n_sample -> 0 <= seed < 2 ^ 32 ->
  forallb (fun rule => has_column (fetchdf t) (column_of rule)) titanic_rules
  = true ->
  (n_sample - 1) * ceil_div (Z.of_nat (List.length t)) n_sample
  < Z.of_nat (List.length t) ->
  let split := call_create_random_samples con n_sample seed k in
  exists samples sample_size dfs,
    fst split = Return (samples, sample_size)
    /\ frames (snd split) = frames k ++ dfs
    /\ List.length dfs = Z.to_nat n_sample
    /\ map (@List.length _) dfs = sample_size
    /\ validate_samples samples (snd split)
       = (Return tt,
          {| outside := outside (snd split);
             frames := frames (snd split);
             displayed := displayed k ++ shown_from 1 dfs |})
    /\ forall rule,
         Permutation
           (List.concat
              (map (fun df => failing_row_ids (evaluate (map snd df) rule))
                 dfs))
           (failing_row_ids (evaluate t rule))
         /\ list_sum
              (map (fun df => rows_passed (evaluate (map snd df) rule)) dfs)
            = rows_passed (evaluate t rule)
         /\ list_sum
              (map (fun df => rows_evaluated (evaluate (map snd df) rule))
                 dfs)
            = List.length t.
Proof.
  intros Hn Hseed Hcols Hfull split.
  pose proof (create_random_samples_chunks (outside k) con d t Hcon Htable
                n_sample seed Hn Hseed) as Hrun.
  pose proof (chunks_get_their_report n_sample seed Hn Hcols Hfull) as Hok.
  cbv zeta in Hrun.
  set (c := Z.to_nat (ceil_div (Z.of_nat (List.length t)) n_sample)) in *.
  set (dfs := map (fun i => chunk c i (shuffled_rows_of t seed))
                (seq 0 (Z.to_nat n_sample))) in *.
  assert (Hjoin : List.concat dfs = shuffled_rows_of t seed).
  { apply concat_chunks. rewrite shuffled_rows_of_length.
    apply (rows_per_sample_covers t n_sample Hn). }
  assert (Hperm : Permutation (List.concat (map (map snd) dfs)) t).
  { rewrite <- map_snd_concat, Hjoin. apply shuffled_rows_of_perm. }
  assert (Hcount : @List.length DataFrame dfs = Z.to_nat n_sample)
    by (unfold dfs; now rewrite length_map, length_seq).
  assert (Hsplit : split
                   = (Return (seq (List.length (frames k)) (List.length dfs),
                              map (@List.length _) dfs),
                      {| outside :=
                           snd (create_random_samples con n_sample seed
                                  (outside k));
                         frames := frames k ++ dfs;
                         displayed := displayed k |})).
  { unfold split. rewrite call_create_random_samples_run, Hrun.
    cbn [samples_returned]. unfold dfs. now rewrite map_map. }
  exists (seq (List.length (frames k)) (List.length dfs)),
    (map (@List.length _) dfs), dfs.
  rewrite Hsplit. cbn [fst snd outside frames displayed].
  split; [reflexivity|]. split; [reflexivity|]. split; [exact Hcount|].
  split; [reflexivity|]. split.
  - unfold validate_samples.
    now rewrite (validate_samples_from_run 0 dfs (frames k)).
  - intros rule.
    destruct (evaluate_concat rule (map (map snd) dfs))
      as (Hfail & Hpass & Hall).
    destruct (evaluate_perm rule _ _ Hperm) as (Hfail' & Hpass' & Hall').
    rewrite map_map in Hfail, Hpass, Hall.
    rewrite <- Hfail, <- Hpass, <- Hall. repeat split; assumption.
Qed.



End ValidateSamples.

(** ** These properties on concrete data *)

(** Without network the first call fails and leaves an empty database. *)
Lemma failed_load_offline :
  fst (get_create_titanic_db "titanic.duckdb" TITANIC_URL false
         offline_world)
  = Raise IOException
  /\ disk world_after_failed_load "titanic.duckdb" = Some empty_database
  /\ executed world_after_failed_load
     = [CREATE_TABLE_IF_NOT_EXISTS_titanic_AS_read_csv TITANIC_URL].
Proof.
  destruct (failed_load_leaves_empty_database
              offline_world "titanic.duckdb" TITANIC_URL false
              eq_refl eq_refl)
    as (Hraise & Hempty & Hlog & _).
  split; [exact Hraise|]. split; [exact Hempty | exact Hlog].
Defined.

(** The next default call returns, and the split then finds no table. *)
Lemma failed_load_offline_then_split :
  fst (get_create_titanic_db "titanic.duckdb" TITANIC_URL false
         world_after_failed_load)
  = Return "titanic.duckdb"
  /\ fst (create_random_samples "titanic.duckdb" N_SAMPLE
            DEFAULT_RANDOM_SEED
            (snd (get_create_titanic_db "titanic.duckdb" TITANIC_URL false
                    world_after_failed_load)))
     = Raise CatalogException.
Proof.
  destruct (failed_load_is_not_retried
              offline_world "titanic.duckdb" TITANIC_URL false
              N_SAMPLE DEFAULT_RANDOM_SEED eq_refl eq_refl)
    as (Hagain & _ & _ & Hsplit & _).
  split; [exact Hagain | exact Hsplit].
Defined.

(** Back online, a forced call loads the four passengers. *)
Lemma forced_call_after_failed_load :
  disk (snd (get_create_titanic_db "titanic.duckdb" TITANIC_URL true
               (back_online (passengers 4) world_after_failed_load)))
    "titanic.duckdb"
  = Some (ingested_database (passengers 4))
  /\ map row_id (row_number 1 (passengers 4))
     = [Some 1; Some 2; Some 3; Some 4].
Proof.
  destruct (forced_call_fills_empty_database
              (back_online (passengers 4) world_after_failed_load)
              "titanic.duckdb" TITANIC_URL empty_database (passengers 4)
              eq_refl eq_refl eq_refl eq_refl ltac:(repeat constructor))
    as (_ & Hdb & Hids & _).
  split; [exact Hdb | exact Hids].
Defined.

(** A forced call on the ingested database, while the URL serves other
    rows, keeps the four rows. *)
Lemma forced_call_keeps_four_passengers :
  exists t',
    disk (snd (get_create_titanic_db "titanic.duckdb" TITANIC_URL true
                 (back_online (passengers 9)
                    (ingested_world (passengers 4)))))
      "titanic.duckdb"
    = Some {| titanic := Some t'; titanic_with_id := None |}
    /\ List.length t' = 4%nat.
Proof.
  destruct (forced_call_does_not_reload
              (back_online (passengers 9) (ingested_world (passengers 4)))
              "titanic.duckdb" TITANIC_URL
              (row_number 1 (passengers 4)) (passengers 9)
              eq_refl eq_refl)
    as (t' & Hdb & Hlen & _).
  exists t'. split; [exact Hdb | exact Hlen].
Defined.

(** 23 passengers in 5 samples: the sizes add up to 23. *)
Lemma sizes_of_23_by_5_add_up :
  exists samples sample_size,
    fst (create_random_samples "titanic.duckdb" 5 42
           (ingested_world (passengers 23)))
    = Return (samples, sample_size)
    /\ list_sum sample_size = 23%nat.
Proof.
  destruct (sample_sizes_add_up
              (ingested_world (passengers 23)) "titanic.duckdb"
              (ingested_database (passengers 23))
              (row_number 1 (passengers 23))
              eq_refl eq_refl 5 42 ltac:(lia) ltac:(lia))
    as (samples & sample_size & Hrun & Hsum & _).
  exists samples, sample_size. split; [exact Hrun | exact Hsum].
Defined.

(** 8 passengers in 3 samples: the second sample is labelled 3, 4, 5. *)
Lemma labels_of_8_by_3 :
  exists samples sample_size,
    fst (create_random_samples "titanic.duckdb" 3 42
           (ingested_world (passengers 8)))
    = Return (samples, sample_size)
    /\ map fst (nth 1 samples [])
       = seq 3 (List.length (nth 1 samples []))
    /\ map fst (List.concat samples) = [0; 1; 2; 3; 4; 5; 6; 7]%nat.
Proof.
  destruct (samples_keep_shuffled_labels
              (ingested_world (passengers 8)) "titanic.duckdb"
              (ingested_database (passengers 8))
              (row_number 1 (passengers 8))
              eq_refl eq_refl 3 42 ltac:(lia) ltac:(lia))
    as (samples & sample_size & Hrun & Hlabels & Hall).
  exists samples, sample_size. split; [exact Hrun|].
  split; [exact (Hlabels 1%nat ltac:(vm_compute; lia)) | exact Hall].
Defined.

(** On the ingested database a seed of -1 makes the split raise
    ValueError, and [n_sample = 0] ZeroDivisionError even then. *)
Lemma split_failures_on_8 :
  fst (create_random_samples "titanic.duckdb" 3 (-1)
         (ingested_world (passengers 8)))
  = Raise ValueError
  /\ fst (create_random_samples "titanic.duckdb" 0 (-1)
            (ingested_world (passengers 8)))
     = Raise ZeroDivisionError.
Proof.
  split.
  - apply (split_fails_in_two_ways_only
             (ingested_world (passengers 8)) "titanic.duckdb"
             (ingested_database (passengers 8))
             (row_number 1 (passengers 8)) eq_refl eq_refl 3 (-1)).
    split; lia.
  - apply (split_fails_in_two_ways_only
             (ingested_world (passengers 8)) "titanic.duckdb"
             (ingested_database (passengers 8))
             (row_number 1 (passengers 8)) eq_refl eq_refl 0 (-1)).
    reflexivity.
Defined.

(** After a split into -2 samples the cross-check cell raises. *)
Lemma cross_check_after_negative_split :
  fst (identical "titanic.duckdb"
         (samples_returned
            (fst (create_random_samples "titanic.duckdb" (-2) 42
                    (ingested_world (passengers 8)))))
         (snd (create_random_samples "titanic.duckdb" (-2) 42
                 (ingested_world (passengers 8)))))
  = Raise ValueError.
Proof.
  apply (cross_check_fails_on_no_samples
           (ingested_world (passengers 8)) "titanic.duckdb"
           (ingested_database (passengers 8))
           (row_number 1 (passengers 8)) eq_refl eq_refl (-2) 42
           ltac:(lia) ltac:(lia)).
Defined.

(** On the table made elsewhere the cross-check raises KeyError. *)
Lemma cross_check_on_foreign_table :
  exists samples sample_size,
    fst (create_random_samples "titanic.duckdb" 2 42 foreign_world)
    = Return (samples, sample_size)
    /\ fst (identical "titanic.duckdb" samples
              (snd (create_random_samples "titanic.duckdb" 2 42
                      foreign_world)))
       = Raise KeyError.
Proof.
  destruct (cross_check_needs_id_column
              foreign_world "titanic.duckdb"
              {| titanic := Some foreign_table; titanic_with_id := None |}
              foreign_table eq_refl eq_refl 2 42 ltac:(lia) ltac:(lia)
              ltac:(discriminate) ltac:(repeat constructor))
    as (samples & sample_size & Hrun & _ & _ & Hcheck).
  exists samples, sample_size. split; [exact Hrun | exact Hcheck].
Defined.

(** The table stored as ids 2, 1 has unique identifiers, and its
    cross-check does not say "identical". *)
Lemma cross_check_of_unordered_table :
  exists samples sample_size,
    fst (create_random_samples "titanic.duckdb" 1 42 unordered_world)
    = Return (samples, sample_size)
    /\ (fst (identical "titanic.duckdb" samples
               (snd (create_random_samples "titanic.duckdb" 1 42
                       unordered_world)))
        = Return true
        <-> increasing_ids unordered_table).
Proof.
  destruct (cross_check_succeeds_iff_id_order
              unordered_world "titanic.duckdb"
              {| titanic := Some unordered_table; titanic_with_id := None |}
              unordered_table eq_refl eq_refl 1 42 ltac:(lia) ltac:(lia))
    as (samples & sample_size & Hrun & _ & Hiff).
  - split.
    + vm_compute. repeat constructor; cbn; intuition discriminate.
    + repeat constructor; discriminate.
  - exists samples, sample_size. split; [exact Hrun | exact Hiff].
Defined.

(** Of the five passengers, the first two pass the chain; the one without
    an age, the one from port X and the one aged 80 do not. *)
Lemma chain_on_five_passengers :
  map (passes_all titanic_rules) five_passengers
  = [true; true; false; false; false]
  /\ passes_all titanic_rules (nth 2 five_passengers []) = false.
Proof.
  split; [reflexivity|].
  apply (proj2 (chain_passes_exactly (nth 2 five_passengers []))).
  reflexivity.
Defined.

(** 8 passengers with every column in 3 samples: the three samples are
    validated and shown, and between them 8 rows are checked for an age. *)
Lemma validating_3_samples_of_8 :
  exists samples sample_size dfs,
    fst (call_create_random_samples "titanic.duckdb" 3 42
           (kernel_after_ingestion (complete_passengers 8)))
    = Return (samples, sample_size)
    /\ List.length dfs = 3%nat
    /\ fst (validate_samples samples
              (snd (call_create_random_samples "titanic.duckdb" 3 42
                      (kernel_after_ingestion (complete_passengers 8)))))
       = Return tt
    /\ displayed
         (snd (validate_samples samples
                 (snd (call_create_random_samples "titanic.duckdb" 3 42
                         (kernel_after_ingestion (complete_passengers 8))))))
       = shown_from 1 dfs
    /\ list_sum
         (map (fun df => rows_evaluated
                           (evaluate (map snd df) (NotNull "age"))) dfs)
       = 8%nat.
Proof.
  destruct (validating_samples_covers_the_table
              (kernel_after_ingestion (complete_passengers 8))
              "titanic.duckdb"
              (ingested_database (complete_passengers 8))
              (row_number 1 (complete_passengers 8))
              eq_refl eq_refl 3 42 ltac:(lia) ltac:(lia) eq_refl eq_refl)
    as (samples & sample_size & dfs & Hrun & _ & Hcount & _ & Hloop & Hall).
  exists samples, sample_size, dfs. split; [exact Hrun|].
  split; [exact Hcount|]. rewrite Hloop. split; [reflexivity|].
  split; [reflexivity|]. apply (Hall (NotNull "age")).
Defined.



(** ** Few rows, no rows *)

Lemma ceil_div_one (a b : Z) : 0 < a <= b -> ceil_div a b = 1.
Proof.
  intros Hab.
  pose proof (ceil_div_covers a b ltac:(lia)).
  pose proof (ceil_div_tight a b ltac:(lia)). nia.
Qed.

Section SmallTables.

Context {G : RandomGen}.

Variables (w : world) (con : string) (d : database) (t : table).
Hypothesis Hcon : disk w con = Some d.
Hypothesis Htable : titanic d = Some t.

(** X14: asked for at least as many samples as the table has rows (and
    the table has a row), the split puts one row in each of the first R
    samples and leaves the other n - R samples empty. *)
Theorem more_samples_than_rows (n_sample seed : Z) :
  0 < Z.of_nat (List.length t) <= n_sample -> 0 <= seed < 2 ^ 32 ->
  exists samples sample_size,
    fst (create_random_samples con n_sample seed w)
    = Return (samples, sample_size)
    /\ List.length sample_size = Z.to_nat n_sample
    /\ forall k, (k < Z.to_nat n_sample)%nat ->
         nth_error sample_size k
         = Some (if (k <? List.length t)%nat then 1%nat else 0%nat)
         /\ List.length (nth k samples []) = nth k sample_size 0%nat.
Proof.
  intros Hrows Hseed.
  pose proof (create_random_samples_chunks w con d t Hcon Htable
                n_sample seed ltac:(lia) Hseed) as Hrun.
  cbv zeta in Hrun. rewrite ceil_div_one in Hrun by exact Hrows.
  change (Z.to_nat 1) with 1%nat in Hrun.
  eexists _, _. split; [exact Hrun|].
  split; [now rewrite length_map, length_seq|].
  intros k Hk.
  assert (Hseq : nth_error (seq 0 (Z.to_nat n_sample)) k = Some k).
  { rewrite nth_error_nth' with (d := 0%nat) by (rewrite length_seq; lia).
    now rewrite seq_nth by lia. }
  split.
  - erewrite map_nth_error by exact Hseq. f_equal.
    rewrite chunk_length, shuffled_rows_of_length.
    destruct (Nat.ltb_spec k (List.length t)); lia.
  - rewrite (nth_error_nth _ _ []
               (map_nth_error
                  (fun i => chunk 1 i (shuffled_rows_of t seed)) _ _ Hseq)).
    rewrite (nth_error_nth _ _ 0%nat
               (map_nth_error
                  (fun i => List.length
                              (chunk 1 i (shuffled_rows_of t seed)))
                  _ _ Hseq)).
    reflexivity.
Qed.

(** X15: on a table without rows the split (n >= 1, valid seed) raises
    nothing: it returns n empty samples, every size 0, and the cross-check
    cell finds them identical to the (empty) original. *)
Theorem split_of_empty_table (n_sample seed : Z) :
  t = [] -> 1 <= n_sample -> 0 <= seed < 2 ^ 32 ->
  exists samples sample_size,
    fst (create_random_samples con n_sample seed w)
    = Return (samples, sample_size)
    /\ samples = repeat [] (Z.to_nat n_sample)
    /\ sample_size = repeat 0%nat (Z.to_nat n_sample)
    /\ fst (identical con samples
              (snd (create_random_samples con n_sample seed w)))
       = Return true.
Proof.
  intros Hempty Hn Hseed.
  pose proof (create_random_samples_chunks w con d t Hcon Htable
                n_sample seed Hn Hseed) as Hrun.
  cbv zeta in Hrun.
  assert (Hshuffled : shuffled_rows_of t seed = []).
  { apply length_zero_iff_nil. rewrite shuffled_rows_of_length.
    now rewrite Hempty. }
  rewrite Hshuffled in Hrun.
  assert (Hchunks : forall c (l : list nat),
             map (fun i => @chunk (nat * record) c i []) l
             = repeat [] (List.length l)).
  { intros c l. induction l as [|i l IH]; [reflexivity|].
    cbn. rewrite IH. f_equal. unfold chunk. rewrite skipn_nil.
    apply firstn_nil. }
  assert (Hsizes : forall c (l : list nat),
             map (fun i => List.length (@chunk (nat * record) c i [])) l
             = repeat 0%nat (List.length l)).
  { intros c l. induction l as [|i l IH]; [reflexivity|].
    cbn. rewrite IH. f_equal. unfold chunk. rewrite skipn_nil.
    now rewrite firstn_nil. }
  rewrite Hchunks, Hsizes, length_seq in Hrun.
  eexists _, _. split; [exact Hrun|].
  split; [reflexivity|]. split; [reflexivity|].
  unfold identical, bind, con_sql. cbn [disk log].
  destruct (frame_create_random_samples con n_sample seed w) as (Hsame & _).
  rewrite Hsame, Hcon. cbn [run_sql]. rewrite Htable, Hempty.
  assert (Hjoin : forall k,
             List.concat (repeat (@nil (nat * record)) k) = []).
  { intros k. induction k as [|k IH]; [reflexivity | exact IH]. }
  unfold concat_samples, bind.
  destruct (Z.to_nat n_sample) as [|k] eqn:Hk; [lia|].
  cbn [repeat pd_concat ret List.concat app].
  rewrite Hjoin. reflexivity.
Qed.

End SmallTables.

(** 3 passengers asked for in 5 samples. *)
Lemma three_passengers_in_5_samples :
  exists samples sample_size,
    fst (create_random_samples "titanic.duckdb" 5 42
           (ingested_world (passengers 3)))
    = Return (samples, sample_size)
    /\ nth_error sample_size 2 = Some 1%nat
    /\ nth_error sample_size 3 = Some 0%nat.
Proof.
  destruct (more_samples_than_rows
              (ingested_world (passengers 3)) "titanic.duckdb"
              (ingested_database (passengers 3))
              (row_number 1 (passengers 3))
              eq_refl eq_refl 5 42
              ltac:(vm_compute; split; [reflexivity | discriminate])
              ltac:(lia))
    as (samples & sample_size & Hrun & _ & Hsizes).
  exists samples, sample_size. split; [exact Hrun|]. split.
  - exact (proj1 (Hsizes 2%nat ltac:(vm_compute; lia))).
  - exact (proj1 (Hsizes 3%nat ltac:(vm_compute; lia))).
Defined.

(** An empty CSV ingested and split into 3 samples. *)
Lemma empty_csv_in_3_samples :
  exists samples sample_size,
    fst (create_random_samples "titanic.duckdb" 3 42 (ingested_world []))
    = Return (samples, sample_size)
    /\ samples = [[]; []; []]
    /\ fst (identical "titanic.duckdb" samples
              (snd (create_random_samples "titanic.duckdb" 3 42
                      (ingested_world []))))
       = Return true.
Proof.
  destruct (split_of_empty_table
              (ingested_world []) "titanic.duckdb" (ingested_database [])
              [] eq_refl eq_refl 3 42 eq_refl ltac:(lia) ltac:(lia))
    as (samples & sample_size & Hrun & Hsamples & _ & Hcheck).
  exists samples, sample_size. split; [exact Hrun|].
  split; [exact Hsamples | exact Hcheck].
Defined.
